(** * FriendlyChat cloud functions (web/functions/index.js)

    A shallow embedding of the three handlers exported by
    [web/functions/index.js] -- [addWelcomeMessages],
    [blurOffensiveImages] (with its helper [blurImage]) and
    [sendNotifications] (with its helper [cleanupTokens]) -- together with
    the properties that the specification states about them.

    The handlers are straight-line orchestration code over managed
    services.  They are embedded in a state-and-exception monad over a
    [World] that holds the storage bucket, the local file system, the
    Firestore documents, the list of service calls issued so far and the
    console output.  What the services answer is fixed by an [Env]. *)

From Stdlib Require Import ZArith NArith String Ascii List Lia.
From stdpp Require Import gmap list strings fin_maps.

Set Default Proof Using "Type".

(* ===================================================================== *)
(** ** JavaScript strings *)
(* ===================================================================== *)

(** A JavaScript string is a sequence of UTF-16 code units; [length],
    [substring] and [split] all count code units. *)
Abbreviation jsstring := (list N).

(** A string literal of the source (all of them are ASCII). *)
Definition lit (s : string) : jsstring :=
  N_of_ascii <$> list_ascii_of_string s.

(** [`${x}`] where [x] is a string or [undefined]. *)
Definition template (x : option jsstring) : jsstring :=
  match x with
  | Some s => s
  | None => lit "undefined"
  end.

(** Truthiness of a value that is a string or [undefined]: the empty
    string and [undefined] are falsy. *)
Definition truthy (x : option jsstring) : bool :=
  match x with
  | Some (_ :: _) => true
  | _ => false
  end.

(** [x || d] for a string-or-undefined [x] and a string [d]. *)
Definition or_else (x : option jsstring) (d : jsstring) : jsstring :=
  match x with
  | Some (c :: s) => c :: s
  | _ => d
  end.

(** [s.substring(a, b)]: the code units from [min a b] up to (not
    including) [max a b], both clamped to the length of [s]. *)
Definition substring (s : jsstring) (a b : nat) : jsstring :=
  take (Nat.max a b - Nat.min a b) (drop (Nat.min a b) s).

(** [s.split(sep)] for a separator of one code unit. *)
Fixpoint split (sep : N) (s : jsstring) : list jsstring :=
  match s with
  | [] => [[]]
  | c :: s' =>
      if N.eqb c sep then [] :: split sep s'
      else match split sep s' with
           | seg :: segs => (c :: seg) :: segs
           | [] => [[c]]
           end
  end.

(** [segs.join(sep)]. *)
Fixpoint join_with (sep : N) (segs : list jsstring) : jsstring :=
  match segs with
  | [] => []
  | [seg] => seg
  | seg :: segs' => seg ++ sep :: join_with sep segs'
  end.

(* ===================================================================== *)
(** ** Node's [path] module (POSIX flavour) *)
(* ===================================================================== *)

Module path.

(** [path.sep] *)
Definition sep : N := 47.

(** [path.basename(p)]: trailing separators are dropped and the part
    after the last remaining separator is returned; [""] when [p] has no
    other character. *)
Definition basename (p : jsstring) : jsstring :=
  List.last (filter (λ seg, seg ≠ []) (split sep p)) [].

(** One step of [normalizeString]: [acc] holds the segments kept so far,
    last one first. *)
Definition normalize_step (allowAboveRoot : bool)
    (acc : list jsstring) (seg : jsstring) : list jsstring :=
  if decide (seg = [] ∨ seg = lit ".") then acc
  else if decide (seg = lit "..") then
    match acc with
    | [] => if allowAboveRoot then [seg] else []
    | top :: rest =>
        if decide (top = lit "..") then
          (if allowAboveRoot then seg :: acc else acc)
        else rest
    end
  else seg :: acc.

Definition normalizeString (p : jsstring) (allowAboveRoot : bool) : jsstring :=
  join_with sep (rev (foldl (normalize_step allowAboveRoot) [] (split sep p))).

(** [path.normalize(p)] *)
Definition normalize (p : jsstring) : jsstring :=
  match p with
  | [] => lit "."
  | c :: _ =>
      let isAbsolute := N.eqb c sep in
      let trailingSeparator := N.eqb (List.last p 0%N) sep in
      let q := normalizeString p (negb isAbsolute) in
      match q with
      | [] =>
          if isAbsolute then [sep]
          else if trailingSeparator then lit "./" else lit "."
      | _ =>
          let q' := if trailingSeparator then q ++ [sep] else q in
          if isAbsolute then sep :: q' else q'
      end
  end.

(** [path.join(a, b)]: the non-empty arguments joined by the separator,
    then normalized. *)
Definition join (a b : jsstring) : jsstring :=
  match filter (λ seg, seg ≠ []) [a; b] with
  | [] => lit "."
  | args => normalize (join_with sep args)
  end.

End path.

(* ===================================================================== *)
(** ** The classifier's likelihood scale *)
(* ===================================================================== *)

(** Modelled from the spec: the table [Vision.types.Likelihood] belongs to
    the Cloud Vision client library and is not part of the repository.  The
    specification gives its six levels in increasing order, UNKNOWN <
    VERY_UNLIKELY < UNLIKELY < POSSIBLE < LIKELY < VERY_LIKELY; they are
    numbered from 0.  [Likelihood key] is the property read
    [Likelihood[key]]; [None] stands for a result that is not a number
    ([undefined]). *)
Definition Likelihood (key : jsstring) : option Z :=
  if decide (key = lit "UNKNOWN") then Some 0%Z
  else if decide (key = lit "VERY_UNLIKELY") then Some 1%Z
  else if decide (key = lit "UNLIKELY") then Some 2%Z
  else if decide (key = lit "POSSIBLE") then Some 3%Z
  else if decide (key = lit "LIKELY") then Some 4%Z
  else if decide (key = lit "VERY_LIKELY") then Some 5%Z
  else None.

(** The names of the six levels. *)
Definition level_names : list jsstring :=
  [lit "UNKNOWN"; lit "VERY_UNLIKELY"; lit "UNLIKELY";
   lit "POSSIBLE"; lit "LIKELY"; lit "VERY_LIKELY"].

(** [Likelihood[x]] where [x] is a property of the annotation, possibly
    missing: a missing property is [undefined], which is looked up under
    the key ["undefined"]. *)
Definition Likelihood_at (x : option jsstring) : option Z :=
  Likelihood (template x).

(** [a >= b] on values that are numbers or [undefined]: a comparison with
    [undefined] is false. *)
Definition js_ge (a b : option Z) : bool :=
  match a, b with
  | Some x, Some y => (y <=? x)%Z
  | _, _ => false
  end.

(** [safeSearchAnnotation]: the two fields that the handler reads. *)
Record SafeSearchAnnotation := {
  adult : option jsstring;
  violence : option jsstring;
}.

(** The test of [blurOffensiveImages]. *)
Definition inappropriate (r : SafeSearchAnnotation) : bool :=
  js_ge (Likelihood_at (adult r)) (Likelihood (lit "LIKELY"))
  || js_ge (Likelihood_at (violence r)) (Likelihood (lit "LIKELY")).

(* ===================================================================== *)
(** ** Values, documents, payloads *)
(* ===================================================================== *)

(** The field values that the handlers write. *)
Inductive value :=
| VStr (s : jsstring)
| VBool (b : bool)
| VServerTimestamp            (* FieldValue.serverTimestamp() *)
| VTime (t : Z).              (* a timestamp assigned by the server *)

#[global] Instance value_eq_dec : EqDecision value.
Proof. solve_decision. Defined.

(** A Firestore document: field name to value. *)
Abbreviation document := (gmap jsstring value).

(** A document is addressed by its collection and its id. *)
Abbreviation docref := (jsstring * jsstring)%type.

(** The content of a file or of a storage object. *)
Abbreviation blob := (list N).

(** [snapshot.data()] of a created message: the fields that
    [sendNotifications] reads; [None] is a missing field. *)
Record MessageData := {
  name : option jsstring;
  text : option jsstring;
  profilePicUrl : option jsstring;
}.

(** [payload.notification] *)
Record Notification := {
  title : jsstring;
  body : jsstring;
  icon : jsstring;
  click_action : jsstring;
}.

(** The user record given to [addWelcomeMessages]. *)
Record UserRecord := {
  displayName : option jsstring;
}.

(** The [object] given to [blurOffensiveImages]. *)
Module object.
Record metadata := {
  bucket : jsstring;
  name : jsstring;
}.
End object.

(** One entry of [response.results]; [error] holds [error.code]. *)
Record SendResult := {
  error : option jsstring;
}.

#[global] Instance Notification_eq_dec : EqDecision Notification.
Proof. solve_decision. Defined.

(* ===================================================================== *)
(** ** The world and the environment *)
(* ===================================================================== *)

(** The calls that the handlers make on services and on the file system. *)
Inductive call :=
| SafeSearchDetection (imageUri : jsstring)
| Download (src dest : jsstring)
| SpawnConvertBlur (file : jsstring)
| Upload (src dest : jsstring)
| UnlinkSync (file : jsstring)
| DocAdd (collection : jsstring) (fields : document)
| DocUpdate (ref : docref) (fields : document)
| DocDelete (ref : docref)
| CollectionGet (collection : jsstring)
| SendToDevice (tokens : list jsstring) (payload : Notification).

#[global] Instance call_eq_dec : EqDecision call.
Proof. solve_decision. Defined.

(** What is thrown (or what a promise is rejected with). *)
Inductive exn :=
| ServiceError (c : call)     (* the service rejected the call *)
| NotFound (c : call)         (* no such object, file or document *)
| AlreadyExists (c : call)
| ConvertFailed (file : jsstring)
| InvalidDocumentPath         (* doc(id) with a missing or empty id *)
| TypeError.

Inductive outcome (A : Type) :=
| Ok (a : A)
| Throw (e : exn).
Arguments Ok {A} a.
Arguments Throw {A} e.

Record World := {
  storage : gmap jsstring blob;      (* the default storage bucket *)
  files : gmap jsstring blob;        (* the local file system *)
  firestore : gmap docref document;
  calls : list call;                 (* oldest first *)
  console : list (list jsstring);    (* one entry per console call *)
}.

Record Env := {
  tmpdir : jsstring;                          (* os.tmpdir() *)
  GCLOUD_PROJECT : option jsstring;           (* process.env.GCLOUD_PROJECT *)
  safeSearch : jsstring -> option SafeSearchAnnotation;
                                              (* None: no annotation (null) *)
  convert_blur : blob -> option blob;         (* ImageMagick; None: it fails *)
  rejects : call -> bool;                     (* the service fails the call *)
  send_results : list jsstring -> Notification -> list SendResult;
  auto_id : jsstring;                         (* id given to an added document *)
  server_time : Z;
}.

(* ===================================================================== *)
(** ** The monad of the handlers *)
(* ===================================================================== *)

(** A computation changes the world and returns or throws; what it did
    before throwing stays done. *)
Definition M (A : Type) : Type := World -> outcome A * World.

Definition ret {A} (a : A) : M A := fun w => (Ok a, w).

Definition throw {A} (e : exn) : M A := fun w => (Throw e, w).

Definition bind {A B} (m : M A) (k : A -> M B) : M B :=
  fun w =>
    match m w with
    | (Ok a, w') => k a w'
    | (Throw e, w') => (Throw e, w')
    end.

Declare Scope handler_scope.
Delimit Scope handler_scope with handler.
Bind Scope handler_scope with M.

Notation "'do' x <- m ; k" := (bind m (fun x => k))
  (at level 10, x name, m at level 100, k at level 200) : handler_scope.
Notation "m ;; k" := (bind m (fun _ => k))
  (at level 100, k at level 200, right associativity) : handler_scope.

Open Scope handler_scope.

Definition get_world : M World := fun w => (Ok w, w).

(** The updates of one component of the world. *)
Definition with_storage (b : gmap jsstring blob) (w : World) : World :=
  {| storage := b; files := files w; firestore := firestore w;
     calls := calls w; console := console w |}.

Definition with_files (f : gmap jsstring blob) (w : World) : World :=
  {| storage := storage w; files := f; firestore := firestore w;
     calls := calls w; console := console w |}.

Definition with_firestore (d : gmap docref document) (w : World) : World :=
  {| storage := storage w; files := files w; firestore := d;
     calls := calls w; console := console w |}.

Definition add_call (c : call) (w : World) : World :=
  {| storage := storage w; files := files w; firestore := firestore w;
     calls := calls w ++ [c]; console := console w |}.

Definition add_log (args : list jsstring) (w : World) : World :=
  {| storage := storage w; files := files w; firestore := firestore w;
     calls := calls w; console := console w ++ [args] |}.

Definition set_storage (b : gmap jsstring blob) : M unit :=
  fun w => (Ok tt, with_storage b w).

Definition set_files (f : gmap jsstring blob) : M unit :=
  fun w => (Ok tt, with_files f w).

Definition set_firestore (d : gmap docref document) : M unit :=
  fun w => (Ok tt, with_firestore d w).

(** Appends a call to the list of calls issued. *)
Definition record (c : call) : M unit :=
  fun w => (Ok tt, add_call c w).

(** [console.log(...)] and [console.error(...)]. *)
Definition console_log (args : list jsstring) : M unit :=
  fun w => (Ok tt, add_log args w).

(** A promise that has settled: starting an asynchronous call does its
    effect and yields its outcome without throwing; [await] throws a
    rejection. *)
Definition start {A} (m : M A) : M (outcome A) :=
  fun w => let '(r, w') := m w in (Ok r, w').

Definition await {A} (p : outcome A) : M A :=
  match p with
  | Ok a => ret a
  | Throw e => throw e
  end.

(** [Promise.all(ps)]: fulfilled when all are, rejected with the first
    rejection otherwise. *)
Fixpoint Promise_all (ps : list (outcome unit)) : outcome unit :=
  match ps with
  | [] => Ok tt
  | Ok _ :: ps' => Promise_all ps'
  | Throw e :: _ => Throw e
  end.

(* ===================================================================== *)
(** ** The services *)
(* ===================================================================== *)

Section Handlers.

Variable E : Env.

(** A call on a service: it is recorded, and fails when the service fails. *)
Definition service (c : call) : M unit :=
  record c ;;
  if rejects E c then throw (ServiceError c) else ret tt.

(** [vision.safeSearchDetection(image)], then [[0].safeSearchAnnotation]. *)
Definition safeSearchDetection (imageUri : jsstring)
  : M (option SafeSearchAnnotation) :=
  service (SafeSearchDetection imageUri) ;;
  ret (safeSearch E imageUri).

(** [bucket.file(src).download({destination: dest})] *)
Definition download (src dest : jsstring) : M unit :=
  service (Download src dest) ;;
  do w <- get_world;
  match storage w !! src with
  | None => throw (NotFound (Download src dest))
  | Some b => set_files (<[dest := b]> (files w))
  end.

(** [spawn('convert', [file, '-channel', 'RGBA', '-blur', '0x24', file])] *)
Definition spawn_convert_blur (file : jsstring) : M unit :=
  service (SpawnConvertBlur file) ;;
  do w <- get_world;
  match files w !! file with
  | None => throw (ConvertFailed file)
  | Some b =>
      match convert_blur E b with
      | None => throw (ConvertFailed file)
      | Some b' => set_files (<[file := b']> (files w))
      end
  end.

(** [bucket.upload(src, {destination: dest})] *)
Definition upload (src dest : jsstring) : M unit :=
  service (Upload src dest) ;;
  do w <- get_world;
  match files w !! src with
  | None => throw (NotFound (Upload src dest))
  | Some b => set_storage (<[dest := b]> (storage w))
  end.

(** [fs.unlinkSync(file)] *)
Definition unlinkSync (file : jsstring) : M unit :=
  record (UnlinkSync file) ;;
  do w <- get_world;
  match files w !! file with
  | None => throw (NotFound (UnlinkSync file))
  | Some _ => set_files (delete file (files w))
  end.

(** [firestore().collection(c).doc(id)]: the id has to be a non-empty
    string; [None] is [undefined]. *)
Definition doc (c : jsstring) (id : option jsstring) : M docref :=
  match id with
  | Some (u :: s) => ret (c, u :: s)
  | _ => throw InvalidDocumentPath
  end.

(** [ref.update(fields)]: the document has to exist. *)
Definition doc_update (ref : docref) (fields : document) : M unit :=
  service (DocUpdate ref fields) ;;
  do w <- get_world;
  match firestore w !! ref with
  | None => throw (NotFound (DocUpdate ref fields))
  | Some d => set_firestore (<[ref := fields ∪ d]> (firestore w))
  end.

(** [ref.delete()]: succeeds whether or not the document exists. *)
Definition doc_delete (ref : docref) : M unit :=
  service (DocDelete ref) ;;
  do w <- get_world;
  set_firestore (delete ref (firestore w)).

(** The server replaces the timestamp sentinel when it writes. *)
Definition resolve (v : value) : value :=
  match v with
  | VServerTimestamp => VTime (server_time E)
  | _ => v
  end.

(** [firestore().collection(c).add(fields)] *)
Definition collection_add (c : jsstring) (fields : document) : M unit :=
  service (DocAdd c fields) ;;
  do w <- get_world;
  match firestore w !! (c, auto_id E) with
  | Some _ => throw (AlreadyExists (DocAdd c fields))
  | None =>
      set_firestore (<[(c, auto_id E) := resolve <$> fields]> (firestore w))
  end.

(** The ids of the documents of a collection, in the order of the store. *)
Definition collection_ids (c : jsstring) (fs : gmap docref document)
  : list jsstring :=
  omap (fun kd : docref * document =>
          if decide ((kd.1).1 = c) then Some (kd.1).2 else None)
       (map_to_list fs).

(** [firestore().collection(c).get()], read with [forEach] into the list
    of the document ids. *)
Definition collection_get (c : jsstring) : M (list jsstring) :=
  service (CollectionGet c) ;;
  do w <- get_world;
  ret (collection_ids c (firestore w)).

(** [messaging().sendToDevice(tokens, payload)], then [.results]. *)
Definition sendToDevice (tokens : list jsstring) (payload : Notification)
  : M (list SendResult) :=
  service (SendToDevice tokens payload) ;;
  ret (send_results E tokens payload).

(* ===================================================================== *)
(** ** The handlers *)
(* ===================================================================== *)

(** Adds a message that welcomes new users into the chat. *)
Definition addWelcomeMessages (user : UserRecord) : M unit :=
  console_log [lit "A new user signed in for the first time."] ;;
  let fullName := or_else (displayName user) (lit "Anonymous") in
  collection_add (lit "messages")
    (list_to_map
       [(lit "name", VStr (lit "Firebase Bot"));
        (lit "profilePicUrl", VStr (lit "/images/firebase-logo.png"));
        (lit "text", VStr (fullName ++ lit " signed in for the first time! Welcome!"));
        (lit "timestamp", VServerTimestamp)]) ;;
  console_log [lit "Welcome message written to database."].

(** Blurs the given image located in the given bucket using ImageMagick. *)
Definition blurImage (filePath : jsstring) : M unit :=
  let tempLocalFile := path.join (tmpdir E) (path.basename filePath) in
  let messageId := split path.sep filePath !! 1%nat in
  download filePath tempLocalFile ;;
  console_log [lit "Image has been downloaded to"; tempLocalFile] ;;
  spawn_convert_blur tempLocalFile ;;
  console_log [lit "Image has been blurred"] ;;
  upload tempLocalFile filePath ;;
  console_log [lit "Blurred image has been uploaded to"; filePath] ;;
  unlinkSync tempLocalFile ;;
  console_log [lit "Deleted local file."] ;;
  do ref <- doc (lit "messages") messageId;
  doc_update ref {[ lit "moderated" := VBool true ]} ;;
  console_log [lit "Marked the image as moderated in the database."].

(** Checks if uploaded images are flagged as Adult or Violence and if so
    blurs them. *)
Definition blurOffensiveImages (o : object.metadata) : M unit :=
  let imageUri := lit "gs://" ++ object.bucket o ++ lit "/" ++ object.name o in
  do annotation <- safeSearchDetection imageUri;
  do safeSearchResult <-
    match annotation with
    | Some r => ret r
    | None => throw TypeError
    end;
  if inappropriate safeSearchResult then
    console_log [lit "The image"; object.name o;
                 lit "has been detected as inappropriate."] ;;
    blurImage (object.name o)
  else
    console_log [lit "The image"; object.name o;
                 lit "has been detected as OK."].

(** The notification built by [sendNotifications]. *)
Definition notification (snapshot : MessageData) : Notification :=
  let text := text snapshot in
  {| title := template (name snapshot) ++ lit " posted "
              ++ (if truthy text then lit "a message" else lit "an image");
     body := match text with
             | Some (c :: s) =>
                 let text := c :: s in
                 if (length text <=? 100)%nat then text
                 else substring text 0 97 ++ lit "..."
             | _ => lit ""
             end;
     icon := or_else (profilePicUrl snapshot)
                     (lit "/images/profile_placeholder.png");
     click_action := lit "https://" ++ template (GCLOUD_PROJECT E)
                     ++ lit ".firebaseapp.com" |}.

(** The body of the [forEach] of [cleanupTokens], for the result at
    [index]; [tokensDelete] holds the delete tasks pushed so far. *)
Definition cleanup_result (tokens : list jsstring)
    (tokensDelete : list (outcome unit)) (index : nat) (result : SendResult)
  : M (list (outcome unit)) :=
  match error result with
  | Some code =>
      console_log [lit "Failure sending notification to";
                   template (tokens !! index); code] ;;
      if decide (code = lit "messaging/invalid-registration-token"
                 ∨ code = lit "messaging/registration-token-not-registered")
      then
        do ref <- doc (lit "messages") (tokens !! index);
        do deleteTask <- start (doc_delete ref);
        ret (tokensDelete ++ [deleteTask])
      else ret tokensDelete
  | None => ret tokensDelete
  end.

Fixpoint cleanup_forEach (tokens : list jsstring)
    (tokensDelete : list (outcome unit)) (index : nat)
    (results : list SendResult) : M (list (outcome unit)) :=
  match results with
  | [] => ret tokensDelete
  | result :: results' =>
      do tokensDelete' <- cleanup_result tokens tokensDelete index result;
      cleanup_forEach tokens tokensDelete' (S index) results'
  end.

(** Cleans up the tokens that are no longer valid.  The function returns
    the promise [Promise.all(tokensDelete)]. *)
Definition cleanupTokens (response : list SendResult) (tokens : list jsstring)
  : M (outcome unit) :=
  do tokensDelete <- cleanup_forEach tokens [] 0 response;
  ret (Promise_all tokensDelete).

(** Sends a notifications to all users when a new message is posted. *)
Definition sendNotifications (snapshot : MessageData) : M unit :=
  let payload := notification snapshot in
  do tokens <- collection_get (lit "fcmTokens");
  if (0 <? length tokens)%nat then
    do response <- sendToDevice tokens payload;
    do cleaned <- cleanupTokens response tokens;
    await cleaned ;;
    console_log [lit "Notifications have been sent and tokens cleaned up."]
  else ret tt.

End Handlers.

(* ===================================================================== *)
(** ** Vocabulary of the statements *)
(* ===================================================================== *)

(** A likelihood value that is one of the six level names. *)
Definition recognized (x : option jsstring) : Prop :=
  match x with
  | Some s => s ∈ level_names
  | None => False
  end.

#[global] Instance recognized_dec (x : option jsstring) : Decision (recognized x).
Proof. destruct x; apply _. Defined.

(** The image URI that [blurOffensiveImages] hands to the classifier. *)
Definition imageUri (o : object.metadata) : jsstring :=
  lit "gs://" ++ object.bucket o ++ lit "/" ++ object.name o.

(** The scratch file of [blurImage]. *)
Definition tempLocalFile (E : Env) (filePath : jsstring) : jsstring :=
  path.join (tmpdir E) (path.basename filePath).

(** The message id that [blurImage] derives from the path. *)
Definition messageId (filePath : jsstring) : option jsstring :=
  split path.sep filePath !! 1%nat.

(** The calls of one kind among a list of calls. *)
Definition is_download (c : call) : bool :=
  match c with Download _ _ => true | _ => false end.
Definition is_convert (c : call) : bool :=
  match c with SpawnConvertBlur _ => true | _ => false end.
Definition is_upload (c : call) : bool :=
  match c with Upload _ _ => true | _ => false end.
Definition is_update (c : call) : bool :=
  match c with DocUpdate _ _ => true | _ => false end.
Definition is_delete (c : call) : bool :=
  match c with DocDelete _ => true | _ => false end.
Definition is_send (c : call) : bool :=
  match c with SendToDevice _ _ => true | _ => false end.

(** The calls issued between two worlds: [calls w'] without its prefix
    [calls w]. *)
Definition new_calls (w w' : World) : list call :=
  drop (length (calls w)) (calls w').

(** How many of the calls issued between two worlds are of the kind [f]. *)
Definition count_calls (f : call → bool) (w w' : World) : nat :=
  length (filter (λ c, f c = true) (new_calls w w')).

(** The last step of [blurImage]: marking the message as moderated. *)
Definition mark_moderated (E : Env) (filePath : jsstring) : M unit :=
  do ref <- doc (lit "messages") (messageId filePath);
  doc_update E ref {[ lit "moderated" := VBool true ]} ;;
  console_log [lit "Marked the image as moderated in the database."].

(** A computation that never changes a document. *)
Definition keeps_firestore {A} (m : M A) : Prop :=
  ∀ w, firestore (m w).2 = firestore w.

(** A computation that never returns normally. *)
Definition always_throws {A} (m : M A) : Prop :=
  ∀ w, ∃ e, (m w).1 = Throw e.

(** [frame objs fs docs w w']: from the world [w] to the world [w'], no
    object of the bucket outside [objs], no local file outside [fs] and no
    document outside [docs] has changed. *)
Definition frame (objs fs : jsstring → Prop) (docs : docref → Prop)
    (w w' : World) : Prop :=
  (∀ q, ¬ objs q → storage w' !! q = storage w !! q)
  ∧ (∀ f, ¬ fs f → files w' !! f = files w !! f)
  ∧ (∀ r, ¬ docs r → firestore w' !! r = firestore w !! r).

(** A computation whose final world is always related by [R] to the world
    it starts in, whether it returns or throws. *)
Definition respects {A} (R : World → World → Prop) (m : M A) : Prop :=
  ∀ w, R w (m w).2.

(** A computation that only adds calls, and adds a prefix of [cs]. *)
Definition issues_prefix {A} (cs : list call) (m : M A) : Prop :=
  ∀ w, ∃ n, calls (m w).2 = calls w ++ take n cs.

(** The document that [blurImage] addresses in its last step, if the path
    gives a usable message id. *)
Definition moderated_ref (filePath : jsstring) : option docref :=
  match messageId filePath with
  | Some (x :: u) => Some (lit "messages", x :: u)
  | _ => None
  end.

(** The calls of [blurImage], in the order of the source. *)
Definition blur_calls (E : Env) (filePath : jsstring) : list call :=
  [Download filePath (tempLocalFile E filePath);
   SpawnConvertBlur (tempLocalFile E filePath);
   Upload (tempLocalFile E filePath) filePath;
   UnlinkSync (tempLocalFile E filePath)]
  ++ match moderated_ref filePath with
     | Some ref => [DocUpdate ref {[ lit "moderated" := VBool true ]}]
     | None => []
     end.

(** What the fan-out may change: documents of the collection of the
    messages, and nothing else. *)
Definition fan_out_frame : World → World → Prop :=
  frame (λ _, False) (λ _, False) (λ r : docref, r.1 = lit "messages").

(** The test of [cleanupTokens] on one result: an error whose code is one
    of the two that report a token as gone. *)
Definition token_gone (result : SendResult) : bool :=
  bool_decide
    (error result = Some (lit "messaging/invalid-registration-token")
     ∨ error result = Some (lit "messaging/registration-token-not-registered")).

(** The tokens whose result, at the same index, passes that test. *)
Definition stale_tokens (tokens : list jsstring) (response : list SendResult)
  : list jsstring :=
  (filter (λ tr : jsstring * SendResult, token_gone tr.2 = true)
     (zip tokens response)).*1.

(** The deletion that [cleanupTokens] issues for a token. *)
Definition token_delete (token : jsstring) : call :=
  DocDelete (lit "messages", token).

(** How the deletion issued for a token settles. *)
Definition delete_task (E : Env) (token : jsstring) : outcome unit :=
  if rejects E (token_delete token)
  then Throw (ServiceError (token_delete token))
  else Ok tt.

(** The documents after the deletions of [cleanupTokens] that the store
    accepted. *)
Definition after_deletes (E : Env) (tokens : list jsstring)
    (fs : gmap docref document) : gmap docref document :=
  foldl (λ fs token,
           if rejects E (token_delete token) then fs
           else delete (lit "messages", token) fs)
        fs tokens.

(** The document written by [addWelcomeMessages]. *)
Definition welcome_document (E : Env) (user : UserRecord) : document :=
  list_to_map
    [(lit "name", VStr (lit "Firebase Bot"));
     (lit "profilePicUrl", VStr (lit "/images/firebase-logo.png"));
     (lit "text", VStr (or_else (displayName user) (lit "Anonymous")
                        ++ lit " signed in for the first time! Welcome!"));
     (lit "timestamp", VTime (server_time E))].

(* ===================================================================== *)
(** ** Sample environments and worlds *)
(* ===================================================================== *)

Module Sample.

Definition likely_adult : SafeSearchAnnotation :=
  {| adult := Some (lit "LIKELY"); violence := Some (lit "UNLIKELY") |}.

Definition harmless : SafeSearchAnnotation :=
  {| adult := Some (lit "POSSIBLE"); violence := Some (lit "VERY_UNLIKELY") |}.

Definition garbled : SafeSearchAnnotation :=
  {| adult := Some (lit "likely"); violence := None |}.

Definition not_registered : SendResult :=
  {| error := Some (lit "messaging/registration-token-not-registered") |}.
Definition invalid_token : SendResult :=
  {| error := Some (lit "messaging/invalid-registration-token") |}.
Definition unavailable : SendResult :=
  {| error := Some (lit "messaging/server-unavailable") |}.
Definition delivered : SendResult := {| error := None |}.

(** Token A is not registered, token B is invalid, any other token is
    delivered to. *)
Definition a_b_gone (token : jsstring) : SendResult :=
  if decide (token = lit "tokenA") then not_registered
  else if decide (token = lit "tokenB") then invalid_token
  else delivered.

(** Every service answers; the classifier answers [r]; the dispatcher
    answers [answer token] for each token. *)
Definition env (r : SafeSearchAnnotation) (answer : jsstring → SendResult)
  : Env :=
  {| tmpdir := lit "/tmp";
     GCLOUD_PROJECT := Some (lit "friendlychat");
     safeSearch := fun _ => Some r;
     convert_blur := fun b => Some (rev b);
     rejects := fun _ => false;
     send_results := fun tokens _ => answer <$> tokens;
     auto_id := lit "welcome1";
     server_time := 1500000000 |}.

(** The environment of the moderation examples. *)
Definition env_of (r : SafeSearchAnnotation) : Env := env r (fun _ => delivered).

(** As [env], but ImageMagick fails. *)
Definition env_convert_fails (r : SafeSearchAnnotation) : Env :=
  {| tmpdir := lit "/tmp";
     GCLOUD_PROJECT := Some (lit "friendlychat");
     safeSearch := fun _ => Some r;
     convert_blur := fun _ => None;
     rejects := fun _ => false;
     send_results := fun _ _ => [];
     auto_id := lit "welcome1";
     server_time := 1500000000 |}.

(** As [env], but the bucket fails every upload. *)
Definition env_upload_fails (r : SafeSearchAnnotation) : Env :=
  {| tmpdir := lit "/tmp";
     GCLOUD_PROJECT := Some (lit "friendlychat");
     safeSearch := fun _ => Some r;
     convert_blur := fun b => Some (rev b);
     rejects := fun c => is_upload c;
     send_results := fun _ _ => [];
     auto_id := lit "welcome1";
     server_time := 1500000000 |}.

(** As [env], but the bucket fails every download. *)
Definition env_download_fails (r : SafeSearchAnnotation) : Env :=
  {| tmpdir := lit "/tmp";
     GCLOUD_PROJECT := Some (lit "friendlychat");
     safeSearch := fun _ => Some r;
     convert_blur := fun b => Some (rev b);
     rejects := fun c => is_download c;
     send_results := fun _ _ => [];
     auto_id := lit "welcome1";
     server_time := 1500000000 |}.

Definition photo : object.metadata :=
  {| object.bucket := lit "friendlychat.appspot.com";
     object.name := lit "images/msg123/photo.png" |}.

(** An object whose path has a single segment. *)
Definition flat_photo : object.metadata :=
  {| object.bucket := lit "friendlychat.appspot.com";
     object.name := lit "photo.png" |}.

(** A bucket with both photos, one message with an image, three
    registered tokens, no local file. *)
Definition world : World :=
  {| storage := {[ lit "images/msg123/photo.png" := [1; 2; 3]%N;
                   lit "photo.png" := [4; 5; 6]%N ]};
     files := ∅;
     firestore :=
       {[ (lit "messages", lit "msg123") :=
            {[ lit "name" := VStr (lit "Ann");
               lit "imageUrl" := VStr (lit "images/msg123/photo.png") ]};
          (lit "fcmTokens", lit "tokenA") := {[ lit "uid" := VStr (lit "u1") ]};
          (lit "fcmTokens", lit "tokenB") := {[ lit "uid" := VStr (lit "u2") ]};
          (lit "fcmTokens", lit "tokenC") := {[ lit "uid" := VStr (lit "u3") ]} ]};
     calls := [];
     console := [] |}.

(** As [world], with no registered token. *)
Definition world_no_tokens : World :=
  {| storage := storage world;
     files := ∅;
     firestore :=
       {[ (lit "messages", lit "msg123") :=
            {[ lit "name" := VStr (lit "Ann") ]} ]};
     calls := [];
     console := [] |}.

(** As [env], but the document store fails every deletion. *)
Definition env_delete_fails (answer : jsstring → SendResult) : Env :=
  {| tmpdir := lit "/tmp";
     GCLOUD_PROJECT := Some (lit "friendlychat");
     safeSearch := fun _ => Some harmless;
     convert_blur := fun b => Some (rev b);
     rejects := fun c => is_delete c;
     send_results := fun tokens _ => answer <$> tokens;
     auto_id := lit "welcome1";
     server_time := 1500000000 |}.

(** As [env], but the classifier, the dispatcher and the [add] fail. *)
Definition env_services_down : Env :=
  {| tmpdir := lit "/tmp";
     GCLOUD_PROJECT := Some (lit "friendlychat");
     safeSearch := fun _ => Some likely_adult;
     convert_blur := fun b => Some (rev b);
     rejects := fun c =>
       match c with
       | SafeSearchDetection _ | SendToDevice _ _ | DocAdd _ _ => true
       | _ => false
       end;
     send_results := fun _ _ => [];
     auto_id := lit "welcome1";
     server_time := 1500000000 |}.

(** As [env], but the classifier returns no annotation. *)
Definition env_no_annotation : Env :=
  {| tmpdir := lit "/tmp";
     GCLOUD_PROJECT := Some (lit "friendlychat");
     safeSearch := fun _ => None;
     convert_blur := fun b => Some (rev b);
     rejects := fun _ => false;
     send_results := fun _ _ => [];
     auto_id := lit "welcome1";
     server_time := 1500000000 |}.

(** An unsafe photo of a message that is not in the store. *)
Definition orphan_photo : object.metadata :=
  {| object.bucket := lit "friendlychat.appspot.com";
     object.name := lit "images/msg999/photo.png" |}.

(** As [world], with the orphan photo in the bucket. *)
Definition world_orphan : World :=
  {| storage := {[ lit "images/msg999/photo.png" := [7; 8; 9]%N ]};
     files := ∅;
     firestore := firestore world;
     calls := [];
     console := [] |}.

(** As [world], with a chat message whose id is the string of token A. *)
Definition world_clash : World :=
  {| storage := storage world;
     files := ∅;
     firestore :=
       {[ (lit "messages", lit "tokenA") :=
            {[ lit "name" := VStr (lit "Bob"); lit "text" := VStr (lit "hi") ]};
          (lit "fcmTokens", lit "tokenA") := {[ lit "uid" := VStr (lit "u1") ]} ]};
     calls := [];
     console := [] |}.

Definition hello : MessageData :=
  {| name := Some (lit "Ann"); text := Some (lit "hello");
     profilePicUrl := None |}.

End Sample.

(* ===================================================================== *)
(** ** Checks of the embedding on concrete inputs *)
(* ===================================================================== *)

Example basename_photo :
  path.basename (lit "images/msg123/photo.png") = lit "photo.png".
Proof. reflexivity. Qed.

Example basename_trailing_separators :
  path.basename (lit "a/b//") = lit "b".
Proof. reflexivity. Qed.

Example join_tmp_photo :
  path.join (lit "/tmp") (lit "photo.png") = lit "/tmp/photo.png".
Proof. reflexivity. Qed.

Example join_tmp_dotdot :
  path.join (lit "/tmp/") (lit "..") = lit "/".
Proof. reflexivity. Qed.

Example split_photo :
  split path.sep (lit "images/msg123/photo.png")
  = [lit "images"; lit "msg123"; lit "photo.png"].
Proof. reflexivity. Qed.

Example messageId_photo :
  messageId (lit "images/msg123/photo.png") = Some (lit "msg123").
Proof. reflexivity. Qed.

Example messageId_flat : messageId (lit "photo.png") = None.
Proof. reflexivity. Qed.

Example likelihood_levels :
  Likelihood <$> level_names
  = [Some 0; Some 1; Some 2; Some 3; Some 4; Some 5]%Z.
Proof. reflexivity. Qed.

Example inappropriate_samples :
  inappropriate Sample.likely_adult = true
  ∧ inappropriate Sample.harmless = false
  ∧ inappropriate Sample.garbled = false.
Proof. repeat split; reflexivity. Qed.

(* ===================================================================== *)
(** ** Stepping through a handler *)
(* ===================================================================== *)

(** Unfolds the monad and the bookkeeping operations. *)
Ltac unfold_monad :=
  unfold bind, ret, throw, await, get_world, set_storage, set_files,
    set_firestore, record, console_log.

Ltac step :=
  unfold_monad;
  cbn [fst snd storage files firestore calls console
       with_storage with_files with_firestore add_call add_log].

(* ===================================================================== *)
(** ** The classifier's scale *)
(* ===================================================================== *)

Lemma Likelihood_unrecognized (s : jsstring) :
  s ∉ level_names → Likelihood s = None.
Proof.
  intros Hs. unfold Likelihood.
  repeat case_decide; try reflexivity; subst s;
    exfalso; apply Hs; unfold level_names; set_solver.
Qed.

Lemma Likelihood_recognized (s : jsstring) :
  s ∈ level_names → is_Some (Likelihood s).
Proof.
  unfold level_names. rewrite !elem_of_cons, elem_of_nil.
  intros [-> | [-> | [-> | [-> | [-> | [-> | []]]]]]]; vm_compute; eauto.
Qed.

Lemma Likelihood_at_unrecognized (x : option jsstring) :
  ¬ recognized x → Likelihood_at x = None.
Proof.
  intros Hx. unfold Likelihood_at. apply Likelihood_unrecognized.
  destruct x as [s |]; simpl.
  - exact Hx.
  - unfold level_names. rewrite !elem_of_cons, elem_of_nil.
    intros [H | [H | [H | [H | [H | [H | []]]]]]]; vm_compute in H; discriminate.
Qed.

Lemma js_ge_undefined (b : option Z) : js_ge None b = false.
Proof. reflexivity. Qed.

(** The threshold is the level LIKELY, number 4. *)
Lemma Likelihood_LIKELY : Likelihood (lit "LIKELY") = Some 4%Z.
Proof. reflexivity. Qed.

(** The test of the handler, read on the numbers of the levels. *)
Lemma inappropriate_false_iff (r : SafeSearchAnnotation) :
  inappropriate r = false
  ↔ js_ge (Likelihood_at (adult r)) (Some 4%Z) = false
    ∧ js_ge (Likelihood_at (violence r)) (Some 4%Z) = false.
Proof.
  unfold inappropriate. rewrite Likelihood_LIKELY. apply orb_false_iff.
Qed.

(* ===================================================================== *)
(** ** The moderation pipeline: the safe branch *)
(* ===================================================================== *)

Section Moderation_safe.

Variable E : Env.

(** When the classifier answers with a result that the test does not flag,
    the handler logs one line and returns; nothing else happens. *)
Lemma blurOffensiveImages_safe (o : object.metadata)
    (r : SafeSearchAnnotation) (w : World) :
  rejects E (SafeSearchDetection (imageUri o)) = false →
  safeSearch E (imageUri o) = Some r →
  inappropriate r = false →
  blurOffensiveImages E o w
  = (Ok tt,
     add_log [lit "The image"; object.name o; lit "has been detected as OK."]
       (add_call (SafeSearchDetection (imageUri o)) w)).
Proof.
  intros Hrej Hss Hsafe.
  unfold blurOffensiveImages, safeSearchDetection, service.
  fold (imageUri o). step. rewrite Hrej. step. rewrite Hss. step.
  rewrite Hsafe. step. reflexivity.
Qed.

(** C2.  For every classifier result in which neither the adult nor the
    violence likelihood reaches LIKELY or above, [blurOffensiveImages]
    performs no download, no upload and no mutation of any Message: it
    returns normally, the bucket, the local files and the documents are
    unchanged, the only call issued is the classification itself, and one
    line is logged. *)
Theorem safe_image_left_untouched (o : object.metadata)
    (r : SafeSearchAnnotation) (w : World) :
  rejects E (SafeSearchDetection (imageUri o)) = false →
  safeSearch E (imageUri o) = Some r →
  js_ge (Likelihood_at (adult r)) (Likelihood (lit "LIKELY")) = false →
  js_ge (Likelihood_at (violence r)) (Likelihood (lit "LIKELY")) = false →
  ∃ w',
    blurOffensiveImages E o w = (Ok tt, w')
    ∧ storage w' = storage w
    ∧ files w' = files w
    ∧ firestore w' = firestore w
    ∧ calls w' = calls w ++ [SafeSearchDetection (imageUri o)]
    ∧ console w'
      = console w
        ++ [[lit "The image"; object.name o; lit "has been detected as OK."]].
Proof.
  intros Hrej Hss Ha Hv.
  eexists. split.
  - apply (blurOffensiveImages_safe o r w Hrej Hss).
    unfold inappropriate. rewrite Ha, Hv. reflexivity.
  - repeat split; reflexivity.
Qed.

(** C9.  For every classifier result whose adult and violence values are
    not among the six recognized level names (an unknown string or a
    missing field), the lookup in the scale yields no number, the
    comparison against LIKELY is false, and [blurOffensiveImages] takes the
    safe branch: no download, no upload and no Message mutation occur. *)
Theorem unrecognized_likelihood_is_safe (o : object.metadata)
    (r : SafeSearchAnnotation) (w : World) :
  rejects E (SafeSearchDetection (imageUri o)) = false →
  safeSearch E (imageUri o) = Some r →
  ¬ recognized (adult r) →
  ¬ recognized (violence r) →
  Likelihood_at (adult r) = None
  ∧ Likelihood_at (violence r) = None
  ∧ js_ge (Likelihood_at (adult r)) (Likelihood (lit "LIKELY")) = false
  ∧ js_ge (Likelihood_at (violence r)) (Likelihood (lit "LIKELY")) = false
  ∧ ∃ w',
      blurOffensiveImages E o w = (Ok tt, w')
      ∧ storage w' = storage w
      ∧ files w' = files w
      ∧ firestore w' = firestore w
      ∧ calls w' = calls w ++ [SafeSearchDetection (imageUri o)].
Proof.
  intros Hrej Hss Ha Hv.
  pose proof (Likelihood_at_unrecognized _ Ha) as Ha'.
  pose proof (Likelihood_at_unrecognized _ Hv) as Hv'.
  rewrite Ha', Hv'. repeat split; try reflexivity.
  eexists. split.
  - apply (blurOffensiveImages_safe o r w Hrej Hss).
    unfold inappropriate. rewrite Ha', Hv'. reflexivity.
  - repeat split; reflexivity.
Qed.

End Moderation_safe.

(** C2 at a concrete input: a harmless photo. *)
Lemma safe_image_left_untouched_witness :
  ∃ w',
    blurOffensiveImages (Sample.env_of Sample.harmless) Sample.photo Sample.world
    = (Ok tt, w')
    ∧ storage w' = storage Sample.world
    ∧ files w' = files Sample.world
    ∧ firestore w' = firestore Sample.world
    ∧ calls w'
      = calls Sample.world ++ [SafeSearchDetection (imageUri Sample.photo)]
    ∧ console w'
      = console Sample.world
        ++ [[lit "The image"; object.name Sample.photo;
             lit "has been detected as OK."]].
Proof.
  apply (safe_image_left_untouched (Sample.env_of Sample.harmless)
           Sample.photo Sample.harmless Sample.world); reflexivity.
Defined.

(** C9 at a concrete input: a lower-case level name and a missing field. *)
Lemma unrecognized_likelihood_is_safe_witness :
  Likelihood_at (adult Sample.garbled) = None
  ∧ Likelihood_at (violence Sample.garbled) = None
  ∧ js_ge (Likelihood_at (adult Sample.garbled)) (Likelihood (lit "LIKELY")) = false
  ∧ js_ge (Likelihood_at (violence Sample.garbled)) (Likelihood (lit "LIKELY")) = false
  ∧ ∃ w',
      blurOffensiveImages (Sample.env_of Sample.garbled) Sample.photo Sample.world
      = (Ok tt, w')
      ∧ storage w' = storage Sample.world
      ∧ files w' = files Sample.world
      ∧ firestore w' = firestore Sample.world
      ∧ calls w'
        = calls Sample.world ++ [SafeSearchDetection (imageUri Sample.photo)].
Proof.
  apply (unrecognized_likelihood_is_safe (Sample.env_of Sample.garbled)
           Sample.photo Sample.garbled Sample.world).
  - reflexivity.
  - reflexivity.
  - compute_done.
  - compute_done.
Defined.

(* ===================================================================== *)
(** ** The notification payload *)
(* ===================================================================== *)

Section Payload.

Variable E : Env.

(** C6.  For every message text, the body of the notification is the empty
    string when the text is absent or has length 0, the text itself when
    its length is at most 100, and its first 97 code units followed by
    ["..."] when its length exceeds 100. *)
Theorem notification_body (snapshot : MessageData) :
  body (notification E snapshot)
  = match text snapshot with
    | None => lit ""
    | Some t =>
        if (length t =? 0)%nat then lit ""
        else if (length t <=? 100)%nat then t
        else take 97 t ++ lit "..."
    end.
Proof.
  destruct snapshot as [n [[| c s] |] p]; reflexivity.
Qed.

(** X22.  The body of a notification is never longer than 100 code units,
    whatever the text of the message. *)
Lemma notification_body_length (snapshot : MessageData) :
  (length (body (notification E snapshot)) ≤ 100)%nat.
Proof.
  unfold notification; cbn [body].
  destruct (text snapshot) as [[| c s] |]; [cbn; lia | | cbn; lia].
  destruct (Nat.leb_spec (length (c :: s)) 100) as [Hle | Hgt].
  - exact Hle.
  - change (substring (c :: s) 0 97) with (take 97 (c :: s)).
    rewrite length_app, length_take.
    change (length (lit "...")) with 3%nat. lia.
Qed.

(** C10.  For every created Message whose text field is present but is the
    empty string, the notification is that of an image-only message: its
    title ends with ["posted an image"], not with ["posted a message"], and
    its body is the empty string. *)
Theorem empty_text_is_image_only (n p : option jsstring) :
  let nt := notification E {| name := n; text := Some (lit "");
                              profilePicUrl := p |} in
  title nt = template n ++ lit " posted an image"
  ∧ lit "posted an image" `suffix_of` title nt
  ∧ ¬ lit "posted a message" `suffix_of` title nt
  ∧ body nt = lit "".
Proof.
  cbn zeta.
  assert (Ht : title (notification E {| name := n; text := Some (lit "");
                                        profilePicUrl := p |})
               = template n ++ lit " posted an image") by reflexivity.
  rewrite Ht. repeat split.
  - exists (template n ++ lit " "). rewrite <- app_assoc. reflexivity.
  - intros [k Hk].
    apply app_inj_2 in Hk as [_ Hk]; [| reflexivity].
    vm_compute in Hk. discriminate.
Qed.

End Payload.

(* ===================================================================== *)
(** ** The services, one call at a time *)
(* ===================================================================== *)

Section Services.

Variable E : Env.

Lemma service_ok (c : call) (w : World) :
  rejects E c = false → service E c w = (Ok tt, add_call c w).
Proof. intros H. unfold service. step. rewrite H. reflexivity. Qed.

Lemma service_rejected (c : call) (w : World) :
  rejects E c = true → service E c w = (Throw (ServiceError c), add_call c w).
Proof. intros H. unfold service. step. rewrite H. reflexivity. Qed.

(** A service call changes nothing but the list of calls, to which it adds
    itself. *)
Lemma service_frame (c : call) (w : World) :
  ∃ r, service E c w = (r, add_call c w).
Proof.
  destruct (rejects E c) eqn:H.
  - eexists. apply service_rejected, H.
  - eexists. apply service_ok, H.
Qed.

Lemma download_ok (src dest : jsstring) (b : blob) (w : World) :
  rejects E (Download src dest) = false →
  storage w !! src = Some b →
  download E src dest w
  = (Ok tt, with_files (<[dest := b]> (files w)) (add_call (Download src dest) w)).
Proof.
  intros Hrej Hsrc. unfold download, bind. rewrite (service_ok _ _ Hrej).
  step. rewrite Hsrc. reflexivity.
Qed.

(** A download that fails writes no file. *)
Lemma download_failed (src dest : jsstring) (w : World) :
  rejects E (Download src dest) = true ∨ storage w !! src = None →
  ∃ e, download E src dest w = (Throw e, add_call (Download src dest) w).
Proof.
  intros H. unfold download, bind.
  destruct (rejects E (Download src dest)) eqn:Hrej.
  - rewrite (service_rejected _ _ Hrej). eauto.
  - destruct H as [H | H]; [discriminate |].
    rewrite (service_ok _ _ Hrej). step. rewrite H. eauto.
Qed.

Lemma spawn_convert_blur_ok (file : jsstring) (b b' : blob) (w : World) :
  rejects E (SpawnConvertBlur file) = false →
  files w !! file = Some b →
  convert_blur E b = Some b' →
  spawn_convert_blur E file w
  = (Ok tt, with_files (<[file := b']> (files w))
              (add_call (SpawnConvertBlur file) w)).
Proof.
  intros Hrej Hfile Hconv. unfold spawn_convert_blur, bind.
  rewrite (service_ok _ _ Hrej). step. rewrite Hfile, Hconv. reflexivity.
Qed.

(** A transform that fails leaves the file as it was. *)
Lemma spawn_convert_blur_failed (file : jsstring) (b : blob) (w : World) :
  files w !! file = Some b →
  rejects E (SpawnConvertBlur file) = true ∨ convert_blur E b = None →
  ∃ e, spawn_convert_blur E file w
       = (Throw e, add_call (SpawnConvertBlur file) w).
Proof.
  intros Hfile H. unfold spawn_convert_blur, bind.
  destruct (rejects E (SpawnConvertBlur file)) eqn:Hrej.
  - rewrite (service_rejected _ _ Hrej). eauto.
  - destruct H as [H | H]; [discriminate |].
    rewrite (service_ok _ _ Hrej). step. rewrite Hfile, H. eauto.
Qed.

Lemma upload_ok (src dest : jsstring) (b : blob) (w : World) :
  rejects E (Upload src dest) = false →
  files w !! src = Some b →
  upload E src dest w
  = (Ok tt, with_storage (<[dest := b]> (storage w))
              (add_call (Upload src dest) w)).
Proof.
  intros Hrej Hsrc. unfold upload, bind. rewrite (service_ok _ _ Hrej).
  step. rewrite Hsrc. reflexivity.
Qed.

Lemma upload_rejected (src dest : jsstring) (w : World) :
  rejects E (Upload src dest) = true →
  upload E src dest w
  = (Throw (ServiceError (Upload src dest)), add_call (Upload src dest) w).
Proof.
  intros Hrej. unfold upload, bind. rewrite (service_rejected _ _ Hrej).
  reflexivity.
Qed.

Lemma unlinkSync_ok (file : jsstring) (b : blob) (w : World) :
  files w !! file = Some b →
  unlinkSync file w
  = (Ok tt, with_files (delete file (files w)) (add_call (UnlinkSync file) w)).
Proof.
  intros Hfile. unfold unlinkSync. step. rewrite Hfile. reflexivity.
Qed.

Lemma doc_valid (c u : jsstring) (x : N) (w : World) :
  doc c (Some (x :: u)) w = (Ok (c, x :: u), w).
Proof. reflexivity. Qed.

Lemma doc_undefined (c : jsstring) (w : World) :
  doc c None w = (Throw InvalidDocumentPath, w).
Proof. reflexivity. Qed.

Lemma doc_empty (c : jsstring) (w : World) :
  doc c (Some []) w = (Throw InvalidDocumentPath, w).
Proof. reflexivity. Qed.

(** An update issues one call; it changes at most the addressed document,
    and only when it succeeds. *)
Lemma doc_update_cases (ref : docref) (fields : document) (w : World) :
  (∃ d, rejects E (DocUpdate ref fields) = false
        ∧ firestore w !! ref = Some d
        ∧ doc_update E ref fields w
          = (Ok tt, with_firestore (<[ref := fields ∪ d]> (firestore w))
                      (add_call (DocUpdate ref fields) w)))
  ∨ (∃ e, (rejects E (DocUpdate ref fields) = true ∨ firestore w !! ref = None)
          ∧ doc_update E ref fields w
            = (Throw e, add_call (DocUpdate ref fields) w)).
Proof.
  unfold doc_update, bind.
  destruct (rejects E (DocUpdate ref fields)) eqn:Hrej.
  - right. rewrite (service_rejected _ _ Hrej). eauto.
  - rewrite (service_ok _ _ Hrej). step.
    destruct (firestore w !! ref) as [d |] eqn:Hd.
    + left. exists d. auto.
    + right. eauto.
Qed.

Lemma doc_delete_ok (ref : docref) (w : World) :
  rejects E (DocDelete ref) = false →
  doc_delete E ref w
  = (Ok tt, with_firestore (delete ref (firestore w)) (add_call (DocDelete ref) w)).
Proof.
  intros Hrej. unfold doc_delete, bind. rewrite (service_ok _ _ Hrej).
  reflexivity.
Qed.

Lemma doc_delete_rejected (ref : docref) (w : World) :
  rejects E (DocDelete ref) = true →
  doc_delete E ref w
  = (Throw (ServiceError (DocDelete ref)), add_call (DocDelete ref) w).
Proof.
  intros Hrej. unfold doc_delete, bind. rewrite (service_rejected _ _ Hrej).
  reflexivity.
Qed.

End Services.

(* ===================================================================== *)
(** ** Frames: what a computation cannot do *)
(* ===================================================================== *)

Lemma keeps_firestore_bind {A B} (m : M A) (k : A → M B) :
  keeps_firestore m → (∀ a, keeps_firestore (k a)) → keeps_firestore (bind m k).
Proof.
  intros Hm Hk w. unfold bind. specialize (Hm w).
  destruct (m w) as [[a | e] w1]; cbn in *.
  - rewrite Hk. exact Hm.
  - exact Hm.
Qed.

Lemma keeps_firestore_ret {A} (a : A) : keeps_firestore (ret a).
Proof. intros w. reflexivity. Qed.

Lemma keeps_firestore_throw {A} (e : exn) : keeps_firestore (@throw A e).
Proof. intros w. reflexivity. Qed.

Lemma keeps_firestore_console_log (args : list jsstring) :
  keeps_firestore (console_log args).
Proof. intros w. reflexivity. Qed.

Lemma keeps_firestore_service (E : Env) (c : call) :
  keeps_firestore (service E c).
Proof. intros w. destruct (service_frame E c w) as [r ->]. reflexivity. Qed.

Lemma keeps_firestore_download (E : Env) (src dest : jsstring) :
  keeps_firestore (download E src dest).
Proof.
  apply keeps_firestore_bind; [apply keeps_firestore_service |].
  intros _ w. step. destruct (storage w !! src); reflexivity.
Qed.

Lemma keeps_firestore_spawn_convert_blur (E : Env) (file : jsstring) :
  keeps_firestore (spawn_convert_blur E file).
Proof.
  apply keeps_firestore_bind; [apply keeps_firestore_service |].
  intros _ w. step.
  destruct (files w !! file) as [b |]; [| reflexivity].
  destruct (convert_blur E b); reflexivity.
Qed.

Lemma keeps_firestore_upload (E : Env) (src dest : jsstring) :
  keeps_firestore (upload E src dest).
Proof.
  apply keeps_firestore_bind; [apply keeps_firestore_service |].
  intros _ w. step. destruct (files w !! src); reflexivity.
Qed.

Lemma keeps_firestore_unlinkSync (file : jsstring) :
  keeps_firestore (unlinkSync file).
Proof. intros w. unfold unlinkSync. step. destruct (files w !! file); reflexivity. Qed.

Lemma always_throws_bind_l {A B} (m : M A) (k : A → M B) :
  always_throws m → always_throws (bind m k).
Proof.
  intros Hm w. unfold bind. destruct (Hm w) as [e He].
  destruct (m w) as [[a | e'] w1]; cbn in *; [discriminate | eauto].
Qed.

Lemma always_throws_bind_r {A B} (m : M A) (k : A → M B) :
  (∀ a, always_throws (k a)) → always_throws (bind m k).
Proof.
  intros Hk w. unfold bind.
  destruct (m w) as [[a | e'] w1]; cbn; [apply Hk | eauto].
Qed.

Lemma keeps_firestore_throw_bind {A B} (e : exn) (k : A → M B) :
  keeps_firestore (bind (throw e) k).
Proof. intros w. reflexivity. Qed.

Lemma always_throws_throw {A} (e : exn) : always_throws (@throw A e).
Proof. intros w. exists e. reflexivity. Qed.

Create HintDb frame discriminated.

#[local] Hint Resolve keeps_firestore_ret keeps_firestore_throw
  keeps_firestore_console_log keeps_firestore_service
  keeps_firestore_download keeps_firestore_spawn_convert_blur
  keeps_firestore_upload keeps_firestore_unlinkSync : frame.

(** Splits a sequence into its steps and closes each with the hints. *)
Ltac frame :=
  repeat first
    [ apply keeps_firestore_throw_bind
    | apply keeps_firestore_bind; [solve [auto with frame] | intros ?]
    | solve [auto with frame] ].

(* ===================================================================== *)
(** ** The moderation pipeline: the blur path *)
(* ===================================================================== *)

Section Blur_path.

Variable E : Env.

(** The unsafe branch of the handler logs one line and runs [blurImage]. *)
Lemma blurOffensiveImages_unsafe (o : object.metadata)
    (r : SafeSearchAnnotation) (w : World) :
  rejects E (SafeSearchDetection (imageUri o)) = false →
  safeSearch E (imageUri o) = Some r →
  inappropriate r = true →
  blurOffensiveImages E o w
  = blurImage E (object.name o)
      (add_log [lit "The image"; object.name o;
                lit "has been detected as inappropriate."]
         (add_call (SafeSearchDetection (imageUri o)) w)).
Proof.
  intros Hrej Hss Hbad.
  unfold blurOffensiveImages, safeSearchDetection.
  fold (imageUri o). unfold bind at 1 2. rewrite (service_ok _ _ _ Hrej).
  step. rewrite Hss. step. rewrite Hbad. reflexivity.
Qed.

(** When the download, the transform and the re-upload succeed,
    [blurImage] reaches its last step in a world where the object holds the
    blurred content, the scratch file is gone and four calls were issued. *)
Lemma blurImage_until_unlink (filePath : jsstring) (b b' : blob) (w : World) :
  let tmp := tempLocalFile E filePath in
  storage w !! filePath = Some b →
  rejects E (Download filePath tmp) = false →
  rejects E (SpawnConvertBlur tmp) = false →
  convert_blur E b = Some b' →
  rejects E (Upload tmp filePath) = false →
  ∃ w1,
    blurImage E filePath w = mark_moderated E filePath w1
    ∧ storage w1 = <[filePath := b']> (storage w)
    ∧ files w1 = delete tmp (files w)
    ∧ firestore w1 = firestore w
    ∧ calls w1
      = calls w ++ [Download filePath tmp; SpawnConvertBlur tmp;
                    Upload tmp filePath; UnlinkSync tmp].
Proof.
  intros tmp Hobj Hdl Hsp Hconv Hup.
  unfold blurImage, mark_moderated. fold (messageId filePath).
  fold (tempLocalFile E filePath). fold tmp.
  unfold bind at 1. rewrite (download_ok _ _ _ _ _ Hdl Hobj).
  unfold bind at 1. unfold console_log at 1.
  unfold bind at 1.
  erewrite spawn_convert_blur_ok; [| exact Hsp | apply lookup_insert_eq | exact Hconv].
  unfold bind at 1. unfold console_log at 1.
  unfold bind at 1.
  erewrite upload_ok; [| exact Hup | apply lookup_insert_eq].
  unfold bind at 1. unfold console_log at 1.
  unfold bind at 1.
  erewrite unlinkSync_ok; [| apply lookup_insert_eq].
  unfold bind at 1. unfold console_log at 1.
  eexists. split; [reflexivity |].
  cbn [storage files firestore calls console
       with_storage with_files with_firestore add_call add_log].
  repeat split.
  - rewrite insert_insert_eq, delete_insert_eq. reflexivity.
  - rewrite <- !app_assoc. reflexivity.
Qed.

(** The last step either fails before any call (no usable message id), or
    issues exactly one update; the bucket and the files are not touched. *)
Lemma mark_moderated_cases (filePath : jsstring) (w1 : World) :
  ∃ res w',
    mark_moderated E filePath w1 = (res, w')
    ∧ storage w' = storage w1
    ∧ files w' = files w1
    ∧ match messageId filePath with
      | Some (x :: u) =>
          let ref := (lit "messages", x :: u) in
          let fields : document := {[ lit "moderated" := VBool true ]} in
          calls w' = calls w1 ++ [DocUpdate ref fields]
          ∧ ((∃ d, firestore w1 !! ref = Some d
                   ∧ rejects E (DocUpdate ref fields) = false
                   ∧ res = Ok tt
                   ∧ firestore w' = <[ref := fields ∪ d]> (firestore w1))
             ∨ ((firestore w1 !! ref = None
                 ∨ rejects E (DocUpdate ref fields) = true)
                ∧ (∃ e, res = Throw e)
                ∧ firestore w' = firestore w1))
      | _ => res = Throw InvalidDocumentPath ∧ w' = w1
      end.
Proof.
  unfold mark_moderated.
  destruct (messageId filePath) as [[| x u] |].
  - do 2 eexists. split; [reflexivity |]. auto.
  - unfold bind at 1. rewrite doc_valid. unfold bind at 1.
    destruct (doc_update_cases E (lit "messages", x :: u)
                {[ lit "moderated" := VBool true ]} w1)
      as [(d & Hrej & Hd & ->) | (e & Hwhy & ->)].
    + do 2 eexists. split; [reflexivity |].
      cbn. repeat split. left. exists d. auto.
    + do 2 eexists. split; [reflexivity |].
      cbn. repeat split. right. repeat split; [tauto | eauto].
  - do 2 eexists. split; [reflexivity |]. auto.
Qed.

(** Without a second path segment there is no message id, and [blurImage]
    fails without changing any document, whatever the services do. *)
Lemma blurImage_no_message_id (filePath : jsstring) (w : World) :
  messageId filePath = None →
  ∃ e w', blurImage E filePath w = (Throw e, w') ∧ firestore w' = firestore w.
Proof.
  intros Hid.
  assert (Hthrows : always_throws (blurImage E filePath)).
  { unfold blurImage. fold (messageId filePath). rewrite Hid.
    change (doc (lit "messages") None) with (@throw docref InvalidDocumentPath).
    repeat first
      [ solve [apply always_throws_bind_l, always_throws_throw]
      | apply always_throws_bind_r; intros ? ]. }
  assert (Hkeeps : keeps_firestore (blurImage E filePath)).
  { unfold blurImage. fold (messageId filePath). rewrite Hid.
    change (doc (lit "messages") None) with (@throw docref InvalidDocumentPath).
    frame. }
  destruct (Hthrows w) as [e He]. specialize (Hkeeps w).
  destruct (blurImage E filePath w) as [res w']. cbn in *. subst res.
  eauto.
Qed.

(** A failed download stops [blurImage] at once. *)
Lemma blurImage_download_failed (filePath : jsstring) (w : World) :
  rejects E (Download filePath (tempLocalFile E filePath)) = true
  ∨ storage w !! filePath = None →
  ∃ e,
    blurImage E filePath w
    = (Throw e, add_call (Download filePath (tempLocalFile E filePath)) w).
Proof.
  intros Hfail. unfold blurImage. fold (tempLocalFile E filePath).
  destruct (download_failed E filePath (tempLocalFile E filePath) w Hfail)
    as [e He].
  exists e. unfold bind at 1. rewrite He. reflexivity.
Qed.

(** A failed transform stops [blurImage] after the download: the scratch
    file holds what was downloaded, and neither upload nor unlink nor
    update is called. *)
Lemma blurImage_transform_failed (filePath : jsstring) (b : blob) (w : World) :
  let tmp := tempLocalFile E filePath in
  storage w !! filePath = Some b →
  rejects E (Download filePath tmp) = false →
  rejects E (SpawnConvertBlur tmp) = true ∨ convert_blur E b = None →
  ∃ e w',
    blurImage E filePath w = (Throw e, w')
    ∧ storage w' = storage w
    ∧ files w' = <[tmp := b]> (files w)
    ∧ firestore w' = firestore w
    ∧ calls w' = calls w ++ [Download filePath tmp; SpawnConvertBlur tmp].
Proof.
  intros tmp Hobj Hdl Hfail.
  unfold blurImage. fold (tempLocalFile E filePath). fold tmp.
  unfold bind at 1. rewrite (download_ok _ _ _ _ _ Hdl Hobj).
  unfold bind at 1. unfold console_log at 1.
  unfold bind at 1.
  match goal with
  | |- context [spawn_convert_blur E tmp ?w1] =>
      destruct (spawn_convert_blur_failed E tmp b w1) as [e ->];
        [apply lookup_insert_eq | exact Hfail |]
  end.
  do 2 eexists. split; [reflexivity |].
  cbn [storage files firestore calls
       with_storage with_files with_firestore add_call add_log].
  repeat split. rewrite <- app_assoc. reflexivity.
Qed.

(** A rejected re-upload stops [blurImage] after the transform: the
    scratch file holds the blurred content, the object is as it was, and
    neither unlink nor update is called. *)
Lemma blurImage_upload_rejected (filePath : jsstring) (b b' : blob) (w : World) :
  let tmp := tempLocalFile E filePath in
  storage w !! filePath = Some b →
  rejects E (Download filePath tmp) = false →
  rejects E (SpawnConvertBlur tmp) = false →
  convert_blur E b = Some b' →
  rejects E (Upload tmp filePath) = true →
  ∃ e w',
    blurImage E filePath w = (Throw e, w')
    ∧ storage w' = storage w
    ∧ files w' = <[tmp := b']> (files w)
    ∧ firestore w' = firestore w
    ∧ calls w'
      = calls w ++ [Download filePath tmp; SpawnConvertBlur tmp;
                    Upload tmp filePath].
Proof.
  intros tmp Hobj Hdl Hsp Hconv Hup.
  unfold blurImage. fold (tempLocalFile E filePath). fold tmp.
  unfold bind at 1. rewrite (download_ok _ _ _ _ _ Hdl Hobj).
  unfold bind at 1. unfold console_log at 1.
  unfold bind at 1.
  erewrite spawn_convert_blur_ok; [| exact Hsp | apply lookup_insert_eq | exact Hconv].
  unfold bind at 1. unfold console_log at 1.
  unfold bind at 1. rewrite (upload_rejected _ _ _ _ Hup).
  do 2 eexists. split; [reflexivity |].
  cbn [storage files firestore calls
       with_storage with_files with_firestore add_call add_log].
  repeat split.
  - apply insert_insert_eq.
  - rewrite <- !app_assoc. reflexivity.
Qed.

End Blur_path.

Section Blur_claims.

Variable E : Env.

(** C1, as amended.  For every classifier result in which the adult or the
    violence likelihood is LIKELY or above (and a non-empty object path):
    provided that the download, the blur transform and the re-upload each
    succeed and that the object path has a non-empty second segment [id],
    [blurOffensiveImages] runs the blur path exactly once: after the
    classification it calls download once, the blur transform once, the
    upload to the same object path once, deletes the scratch file, and
    then attempts exactly one update of the message [id] with
    [moderated = true]; when that update is accepted the message carries
    the flag.  A step that fails aborts the invocation, so the later steps
    are not called: a failed download is the last call, a failed transform
    is followed by no upload, and a rejected upload by no update. *)
Theorem unsafe_image_blur_path (o : object.metadata)
    (r : SafeSearchAnnotation) (w : World) :
  let filePath := object.name o in
  let tmp := tempLocalFile E filePath in
  let fields : document := {[ lit "moderated" := VBool true ]} in
  rejects E (SafeSearchDetection (imageUri o)) = false →
  safeSearch E (imageUri o) = Some r →
  js_ge (Likelihood_at (adult r)) (Likelihood (lit "LIKELY")) = true
  ∨ js_ge (Likelihood_at (violence r)) (Likelihood (lit "LIKELY")) = true →
  filePath ≠ [] →
  ∃ res w',
    blurOffensiveImages E o w = (res, w')
    (* every step succeeds *)
    ∧ (∀ (b b' : blob) (id : jsstring),
         storage w !! filePath = Some b →
         rejects E (Download filePath tmp) = false →
         rejects E (SpawnConvertBlur tmp) = false →
         convert_blur E b = Some b' →
         rejects E (Upload tmp filePath) = false →
         messageId filePath = Some id →
         id ≠ [] →
         calls w'
         = calls w ++ [SafeSearchDetection (imageUri o);
                       Download filePath tmp; SpawnConvertBlur tmp;
                       Upload tmp filePath; UnlinkSync tmp;
                       DocUpdate (lit "messages", id) fields]
         ∧ count_calls is_download w w' = 1%nat
         ∧ count_calls is_convert w w' = 1%nat
         ∧ count_calls is_upload w w' = 1%nat
         ∧ count_calls is_update w w' = 1%nat
         ∧ storage w' = <[filePath := b']> (storage w)
         ∧ (∀ d, firestore w !! (lit "messages", id) = Some d →
                 rejects E (DocUpdate (lit "messages", id) fields) = false →
                 res = Ok tt
                 ∧ firestore w'
                   = <[(lit "messages", id) := fields ∪ d]> (firestore w)))
    (* the download fails *)
    ∧ (rejects E (Download filePath tmp) = true
       ∨ storage w !! filePath = None →
       (∃ e, res = Throw e)
       ∧ calls w'
         = calls w ++ [SafeSearchDetection (imageUri o);
                       Download filePath tmp]
       ∧ storage w' = storage w
       ∧ firestore w' = firestore w)
    (* the transform fails *)
    ∧ (∀ b : blob,
         storage w !! filePath = Some b →
         rejects E (Download filePath tmp) = false →
         rejects E (SpawnConvertBlur tmp) = true ∨ convert_blur E b = None →
         (∃ e, res = Throw e)
         ∧ calls w'
           = calls w ++ [SafeSearchDetection (imageUri o);
                         Download filePath tmp; SpawnConvertBlur tmp]
         ∧ storage w' = storage w
         ∧ firestore w' = firestore w)
    (* the re-upload fails *)
    ∧ (∀ b b' : blob,
         storage w !! filePath = Some b →
         rejects E (Download filePath tmp) = false →
         rejects E (SpawnConvertBlur tmp) = false →
         convert_blur E b = Some b' →
         rejects E (Upload tmp filePath) = true →
         (∃ e, res = Throw e)
         ∧ calls w'
           = calls w ++ [SafeSearchDetection (imageUri o);
                         Download filePath tmp; SpawnConvertBlur tmp;
                         Upload tmp filePath]
         ∧ storage w' = storage w
         ∧ firestore w' = firestore w).
Proof.
  intros filePath tmp fields Hrej Hss Hbad Hpath.
  assert (Hbad' : inappropriate r = true).
  { unfold inappropriate. apply orb_true_iff. exact Hbad. }
  rewrite (blurOffensiveImages_unsafe E o r w Hrej Hss Hbad').
  fold filePath.
  set (w0 := add_log _ _).
  assert (Hw0c : calls w0 = calls w ++ [SafeSearchDetection (imageUri o)])
    by reflexivity.
  destruct (blurImage E filePath w0) as [res w'] eqn:Hrun.
  exists res, w'. split; [reflexivity |]. repeat apply conj.
  - (* every step succeeds *)
    intros b b' id Hobj Hdl Hsp Hconv Hup Hid Hne.
    set (ref := (lit "messages", id)).
    destruct (blurImage_until_unlink E filePath b b' w0 Hobj Hdl Hsp Hconv Hup)
      as (w1 & Hrun1 & Hst1 & Hfi1 & Hfs1 & Hc1).
    destruct (mark_moderated_cases E filePath w1)
      as (res2 & w2 & Hrun2 & Hst & Hfi & Hcases).
    rewrite Hrun1, Hrun2 in Hrun. injection Hrun as -> ->.
    rewrite Hid in Hcases. destruct id as [| x u]; [congruence |].
    cbn zeta in Hcases. destruct Hcases as [Hc Hupd].
    assert (Hcalls : calls w'
                     = calls w ++ [SafeSearchDetection (imageUri o);
                                   Download filePath tmp; SpawnConvertBlur tmp;
                                   Upload tmp filePath; UnlinkSync tmp;
                                   DocUpdate ref fields]).
    { rewrite Hc, Hc1, Hw0c, <- !app_assoc. reflexivity. }
    assert (Hnew : new_calls w w'
                   = [SafeSearchDetection (imageUri o);
                      Download filePath tmp; SpawnConvertBlur tmp;
                      Upload tmp filePath; UnlinkSync tmp;
                      DocUpdate ref fields]).
    { unfold new_calls. rewrite Hcalls. apply drop_app_length. }
    split; [exact Hcalls |].
    unfold count_calls. rewrite Hnew.
    repeat (split; [reflexivity |]).
    split; [rewrite Hst, Hst1; reflexivity |].
    intros d Hd Hok. rewrite Hfs1 in Hupd.
    change (firestore w0) with (firestore w) in Hupd.
    destruct Hupd as [(d' & Hd' & _ & -> & Hfs) | ([Hnone | Hrejd] & _)].
    + fold ref in Hd'. rewrite Hd in Hd'. injection Hd' as <-.
      split; [reflexivity | exact Hfs].
    + fold ref in Hnone. congruence.
    + fold ref fields in Hrejd. congruence.
  - (* the download fails *)
    intros Hfail.
    destruct (blurImage_download_failed E filePath w0 Hfail) as [e He].
    rewrite He in Hrun. injection Hrun as <- <-.
    split; [eauto |]. cbn [calls add_call]. rewrite Hw0c, <- app_assoc.
    repeat split.
  - (* the transform fails *)
    intros b Hobj Hdl Hfail.
    destruct (blurImage_transform_failed E filePath b w0 Hobj Hdl Hfail)
      as (e & w1 & He & Hst & _ & Hfs & Hc).
    rewrite He in Hrun. injection Hrun as <- <-.
    split; [eauto |]. rewrite Hc, Hw0c, <- app_assoc, Hst, Hfs.
    repeat split.
  - (* the re-upload fails *)
    intros b b' Hobj Hdl Hsp Hconv Hup.
    destruct (blurImage_upload_rejected E filePath b b' w0 Hobj Hdl Hsp Hconv Hup)
      as (e & w1 & He & Hst & _ & Hfs & Hc).
    rewrite He in Hrun. injection Hrun as <- <-.
    split; [eauto |]. rewrite Hc, Hw0c, <- app_assoc, Hst, Hfs.
    repeat split.
Qed.

(** C4, as amended.  After any invocation of [blurImage] in which the
    download has created the scratch file, the scratch file no longer
    exists when [blurImage] returns exactly when the blur transform and the
    re-upload have both succeeded, whether the update of the message then
    succeeds or fails.  When the transform or the re-upload fails,
    [blurImage] throws before it reaches the deletion, and the scratch file
    stays on disk. *)
Theorem scratch_file_deleted_after_upload (filePath : jsstring)
    (b : blob) (w : World) :
  let tmp := tempLocalFile E filePath in
  filePath ≠ [] →
  storage w !! filePath = Some b →
  rejects E (Download filePath tmp) = false →
  ∃ res w',
    blurImage E filePath w = (res, w')
    ∧ (files w' !! tmp = None
       ↔ rejects E (SpawnConvertBlur tmp) = false
         ∧ (∃ b', convert_blur E b = Some b')
         ∧ rejects E (Upload tmp filePath) = false)
    ∧ (rejects E (SpawnConvertBlur tmp) = true ∨ convert_blur E b = None →
       (∃ e, res = Throw e) ∧ is_Some (files w' !! tmp))
    ∧ (∀ b', rejects E (SpawnConvertBlur tmp) = false →
             convert_blur E b = Some b' →
             rejects E (Upload tmp filePath) = true →
             (∃ e, res = Throw e) ∧ is_Some (files w' !! tmp)).
Proof.
  intros tmp Hpath Hobj Hdl.
  destruct (rejects E (SpawnConvertBlur tmp)) eqn:Hsp;
    [| destruct (convert_blur E b) as [b' |] eqn:Hconv;
       [destruct (rejects E (Upload tmp filePath)) eqn:Hup |]].
  - (* the transform is rejected *)
    destruct (blurImage_transform_failed E filePath b w Hobj Hdl
                (or_introl Hsp))
      as (e & w' & -> & _ & Hfi & _ & _).
    assert (Hfile : files w' !! tmp = Some b)
      by (rewrite Hfi; apply lookup_insert_eq).
    exists (Throw e), w'. split; [reflexivity |]. split; [| split].
    + rewrite Hfile. split; [discriminate | intros [H _]; discriminate].
    + intros _. eauto.
    + intros b' H. discriminate.
  - (* the re-upload is rejected *)
    destruct (blurImage_upload_rejected E filePath b b' w Hobj Hdl Hsp Hconv Hup)
      as (e & w' & -> & _ & Hfi & _ & _).
    assert (Hfile : files w' !! tmp = Some b')
      by (rewrite Hfi; apply lookup_insert_eq).
    exists (Throw e), w'. split; [reflexivity |]. split; [| split].
    + rewrite Hfile. split; [discriminate | intros (_ & _ & H); discriminate].
    + intros [H | H]; discriminate.
    + intros b'' _ H _. injection H as <-. eauto.
  - (* transform and re-upload succeed *)
    destruct (blurImage_until_unlink E filePath b b' w Hobj Hdl Hsp Hconv Hup)
      as (w1 & -> & _ & Hfi1 & _ & _).
    destruct (mark_moderated_cases E filePath w1)
      as (res & w' & -> & _ & Hfi & _).
    assert (Hfile : files w' !! tmp = None)
      by (rewrite Hfi, Hfi1; apply lookup_delete_eq).
    exists res, w'. split; [reflexivity |]. split; [| split].
    + rewrite Hfile. split; [intros _; eauto | reflexivity].
    + intros [H | H]; discriminate.
    + intros b'' _ _ H. discriminate.
  - (* ImageMagick fails *)
    destruct (blurImage_transform_failed E filePath b w Hobj Hdl
                (or_intror Hconv))
      as (e & w' & -> & _ & Hfi & _ & _).
    assert (Hfile : files w' !! tmp = Some b)
      by (rewrite Hfi; apply lookup_insert_eq).
    exists (Throw e), w'. split; [reflexivity |]. split; [| split].
    + rewrite Hfile.
      split; [discriminate | intros (_ & [b' H] & _); discriminate].
    + intros _. eauto.
    + intros b' _ H. discriminate.
Qed.

(** C5, as amended.  For every object path without a second segment,
    [blurOffensiveImages] on an unsafe image fails and modifies no Message
    record.  It fails only at the end of the blur path, though: when the
    download, the transform and the re-upload succeed, the object in the
    bucket has been overwritten with the blurred content (and the scratch
    file deleted) before the missing message id is rejected. *)
Theorem no_message_id_fails_after_overwrite (o : object.metadata)
    (r : SafeSearchAnnotation) (w : World) :
  let filePath := object.name o in
  let tmp := tempLocalFile E filePath in
  rejects E (SafeSearchDetection (imageUri o)) = false →
  safeSearch E (imageUri o) = Some r →
  inappropriate r = true →
  messageId filePath = None →
  ∃ e w',
    blurOffensiveImages E o w = (Throw e, w')
    ∧ firestore w' = firestore w
    ∧ (∀ b b',
         storage w !! filePath = Some b →
         rejects E (Download filePath tmp) = false →
         rejects E (SpawnConvertBlur tmp) = false →
         convert_blur E b = Some b' →
         rejects E (Upload tmp filePath) = false →
         e = InvalidDocumentPath
         ∧ storage w' = <[filePath := b']> (storage w)
         ∧ files w' = delete tmp (files w)).
Proof.
  intros filePath tmp Hrej Hss Hbad Hid.
  rewrite (blurOffensiveImages_unsafe E o r w Hrej Hss Hbad).
  fold filePath. set (w0 := add_log _ _).
  destruct (blurImage_no_message_id E filePath w0 Hid) as (e & w' & Hrun & Hfs).
  exists e, w'. split; [exact Hrun |]. split; [exact Hfs |].
  intros b b' Hobj Hdl Hsp Hconv Hup.
  destruct (blurImage_until_unlink E filePath b b' w0 Hobj Hdl Hsp Hconv Hup)
    as (w1 & Hrun1 & Hst1 & Hfi1 & _ & _).
  destruct (mark_moderated_cases E filePath w1)
    as (res & w'' & Hrun2 & _ & _ & Hcases).
  rewrite Hid in Hcases. destruct Hcases as [-> ->].
  rewrite Hrun1, Hrun2 in Hrun. injection Hrun as <- <-.
  repeat split; assumption.
Qed.

End Blur_claims.

(** C1 at the scenario of the specification: ["images/msg123/photo.png"]
    with adult = LIKELY and violence = UNLIKELY; message [msg123] gets the
    flag. *)
Lemma unsafe_image_blur_path_witness :
  ∃ res w',
    blurOffensiveImages (Sample.env_of Sample.likely_adult) Sample.photo
      Sample.world = (res, w')
    ∧ calls w'
      = calls Sample.world
        ++ [SafeSearchDetection (imageUri Sample.photo);
            Download (lit "images/msg123/photo.png") (lit "/tmp/photo.png");
            SpawnConvertBlur (lit "/tmp/photo.png");
            Upload (lit "/tmp/photo.png") (lit "images/msg123/photo.png");
            UnlinkSync (lit "/tmp/photo.png");
            DocUpdate (lit "messages", lit "msg123")
              {[ lit "moderated" := VBool true ]}]
    ∧ res = Ok tt
    ∧ firestore w' !! (lit "messages", lit "msg123")
      = Some ({[ lit "moderated" := VBool true ]}
              ∪ {[ lit "name" := VStr (lit "Ann");
                   lit "imageUrl" := VStr (lit "images/msg123/photo.png") ]}).
Proof.
  destruct (unsafe_image_blur_path (Sample.env_of Sample.likely_adult)
              Sample.photo Sample.likely_adult Sample.world)
    as (res & w' & Hrun & Hok & _);
    [reflexivity | reflexivity | left; reflexivity | discriminate |].
  destruct (Hok [1; 2; 3]%N [3; 2; 1]%N (lit "msg123"))
    as (Hcalls & _ & _ & _ & _ & _ & Hflag);
    [reflexivity | reflexivity | reflexivity | reflexivity | reflexivity
    | reflexivity | discriminate |].
  exists res, w'. split; [exact Hrun |]. split; [exact Hcalls |].
  destruct (Hflag {[ lit "name" := VStr (lit "Ann");
                     lit "imageUrl" := VStr (lit "images/msg123/photo.png") ]})
    as [Hres Hfs]; [reflexivity | reflexivity |].
  split; [exact Hres |]. rewrite Hfs. apply lookup_insert_eq.
Defined.

(** C1 as stated fails: when ImageMagick fails on the downloaded file, the
    handler, on an image classified LIKELY adult, has called download and
    the transform but never uploads and never attempts the update. *)
Lemma blur_path_stops_at_failed_transform :
  js_ge (Likelihood_at (adult Sample.likely_adult)) (Likelihood (lit "LIKELY"))
  = true
  ∧ safeSearch (Sample.env_convert_fails Sample.likely_adult)
      (imageUri Sample.photo) = Some Sample.likely_adult
  ∧ new_calls Sample.world
      (blurOffensiveImages (Sample.env_convert_fails Sample.likely_adult)
         Sample.photo Sample.world).2
    = [SafeSearchDetection (imageUri Sample.photo);
       Download (lit "images/msg123/photo.png") (lit "/tmp/photo.png");
       SpawnConvertBlur (lit "/tmp/photo.png")]
  ∧ ¬ (count_calls is_upload Sample.world
         (blurOffensiveImages (Sample.env_convert_fails Sample.likely_adult)
            Sample.photo Sample.world).2 = 1%nat
       ∧ count_calls is_update Sample.world
           (blurOffensiveImages (Sample.env_convert_fails Sample.likely_adult)
              Sample.photo Sample.world).2 = 1%nat).
Proof.
  repeat split; try reflexivity.
  intros [H _]. vm_compute in H. discriminate.
Qed.

(** C4 at a concrete input: the scenario of the specification. *)
Lemma scratch_file_deleted_after_upload_witness :
  ∃ res w',
    blurImage (Sample.env_of Sample.likely_adult) (lit "images/msg123/photo.png")
      Sample.world = (res, w')
    ∧ files w' !! lit "/tmp/photo.png" = None.
Proof.
  destruct (scratch_file_deleted_after_upload
              (Sample.env_of Sample.likely_adult)
              (lit "images/msg123/photo.png") [1; 2; 3]%N Sample.world)
    as (res & w' & Hrun & Hiff & _);
    [discriminate | reflexivity | reflexivity |].
  exists res, w'. split; [exact Hrun |].
  apply Hiff. split; [reflexivity |]. split; [| reflexivity].
  exists [3; 2; 1]%N. reflexivity.
Defined.

(** C4 as stated fails: the scratch file, which did not exist before and
    was created by the download, is still there when [blurImage] has failed
    in the transform, and also when it has failed in the re-upload. *)
Lemma scratch_file_left_after_failure :
  files Sample.world !! lit "/tmp/photo.png" = None
  ∧ (blurImage (Sample.env_convert_fails Sample.likely_adult)
       (lit "images/msg123/photo.png") Sample.world).1
    = Throw (ConvertFailed (lit "/tmp/photo.png"))
  ∧ files (blurImage (Sample.env_convert_fails Sample.likely_adult)
             (lit "images/msg123/photo.png") Sample.world).2
    !! lit "/tmp/photo.png" = Some [1; 2; 3]%N
  ∧ (blurImage (Sample.env_upload_fails Sample.likely_adult)
       (lit "images/msg123/photo.png") Sample.world).1
    = Throw (ServiceError (Upload (lit "/tmp/photo.png")
                             (lit "images/msg123/photo.png")))
  ∧ files (blurImage (Sample.env_upload_fails Sample.likely_adult)
             (lit "images/msg123/photo.png") Sample.world).2
    !! lit "/tmp/photo.png" = Some [3; 2; 1]%N
  ∧ ¬ (files (blurImage (Sample.env_convert_fails Sample.likely_adult)
                (lit "images/msg123/photo.png") Sample.world).2
       !! lit "/tmp/photo.png" = None).
Proof.
  repeat split; try reflexivity.
  intros H. vm_compute in H. discriminate.
Qed.

(** C5 at a concrete input: an unsafe image stored at ["photo.png"]. *)
Lemma no_message_id_fails_after_overwrite_witness :
  ∃ w',
    blurOffensiveImages (Sample.env_of Sample.likely_adult) Sample.flat_photo
      Sample.world = (Throw InvalidDocumentPath, w')
    ∧ firestore w' = firestore Sample.world
    ∧ storage w' = <[lit "photo.png" := [6; 5; 4]%N]> (storage Sample.world)
    ∧ files w' = delete (lit "/tmp/photo.png") (files Sample.world).
Proof.
  destruct (no_message_id_fails_after_overwrite
              (Sample.env_of Sample.likely_adult) Sample.flat_photo
              Sample.likely_adult Sample.world)
    as (e & w' & Hrun & Hfs & Hrest);
    [reflexivity | reflexivity | reflexivity | reflexivity |].
  destruct (Hrest [4; 5; 6]%N [6; 5; 4]%N) as (-> & Hst & Hfi);
    [reflexivity | reflexivity | reflexivity | reflexivity | reflexivity |].
  exists w'. auto.
Defined.

(** C5 as stated fails: for the path ["photo.png"], which has no second
    segment, the failing invocation has overwritten the object with its
    blurred content. *)
Lemma no_message_id_blob_overwritten :
  messageId (object.name Sample.flat_photo) = None
  ∧ inappropriate Sample.likely_adult = true
  ∧ storage Sample.world !! lit "photo.png" = Some [4; 5; 6]%N
  ∧ storage (blurOffensiveImages (Sample.env_of Sample.likely_adult)
               Sample.flat_photo Sample.world).2
    !! lit "photo.png" = Some [6; 5; 4]%N
  ∧ ¬ (storage (blurOffensiveImages (Sample.env_of Sample.likely_adult)
                  Sample.flat_photo Sample.world).2
       = storage Sample.world
       ∧ firestore (blurOffensiveImages (Sample.env_of Sample.likely_adult)
                      Sample.flat_photo Sample.world).2
         = firestore Sample.world).
Proof.
  repeat split; try reflexivity.
  intros [H _].
  apply (f_equal (λ m : gmap jsstring blob, m !! lit "photo.png")) in H.
  vm_compute in H. discriminate.
Qed.

(* ===================================================================== *)
(** ** The welcome message *)
(* ===================================================================== *)

Section Welcome.

Variable E : Env.

(** The handler issues one call, the [add] on the collection of the
    messages; the text that it hands over starts with the display name, or
    with ["Anonymous"] when the name is missing or empty. *)
Lemma addWelcomeMessages_call (user : UserRecord) (w : World) :
  ∃ fields,
    calls (addWelcomeMessages E user w).2
    = calls w ++ [DocAdd (lit "messages") fields]
    ∧ fields !! lit "text"
      = Some (VStr (or_else (displayName user) (lit "Anonymous")
                    ++ lit " signed in for the first time! Welcome!"))
    ∧ fields !! lit "name" = Some (VStr (lit "Firebase Bot"))
    ∧ fields !! lit "timestamp" = Some VServerTimestamp.
Proof.
  eexists. split.
  - unfold addWelcomeMessages, collection_add.
    unfold bind at 1. unfold console_log at 1. cbn zeta.
    unfold bind at 1 2.
    match goal with
    | |- context [service E ?c ?w0] =>
        destruct (service_frame E c w0) as [[[] | e] ->]
    end; [| reflexivity].
    step.
    destruct (firestore w !! (lit "messages", auto_id E)); reflexivity.
  - repeat split; reflexivity.
Qed.

(** C8, as amended.  For every newly created user whose display name is
    absent or is the empty string, the welcome-message emitter appends a
    Message whose text is exactly ["Anonymous signed in for the first time!
    Welcome!"]; for a user with a non-empty display name [d], the appended
    text is [d] followed by [" signed in for the first time! Welcome!"].
    (The message is appended when the document store accepts the [add]
    and the new id is free.) *)
Theorem welcome_message_text (user : UserRecord) (w : World) :
  (∀ fields, rejects E (DocAdd (lit "messages") fields) = false) →
  firestore w !! (lit "messages", auto_id E) = None →
  ∃ d w',
    addWelcomeMessages E user w = (Ok tt, w')
    ∧ firestore w' = <[(lit "messages", auto_id E) := d]> (firestore w)
    ∧ d !! lit "text"
      = Some (VStr
                match displayName user with
                | None | Some [] =>
                    lit "Anonymous signed in for the first time! Welcome!"
                | Some n => n ++ lit " signed in for the first time! Welcome!"
                end).
Proof.
  intros Hrej Hfree.
  unfold addWelcomeMessages, collection_add.
  unfold bind at 1. unfold console_log at 1. cbn zeta.
  unfold bind at 1 2. rewrite (service_ok _ _ _ (Hrej _)).
  step. rewrite Hfree.
  do 2 eexists. split; [reflexivity |]. split; [reflexivity |].
  destruct (displayName user) as [[| c d] |]; reflexivity.
Qed.

End Welcome.

(** C8 at a concrete input: a user called Ann. *)
Lemma welcome_message_text_witness :
  ∃ d w',
    addWelcomeMessages (Sample.env_of Sample.harmless)
      {| displayName := Some (lit "Ann") |} Sample.world = (Ok tt, w')
    ∧ firestore w'
      = <[(lit "messages", lit "welcome1") := d]> (firestore Sample.world)
    ∧ d !! lit "text"
      = Some (VStr (lit "Ann signed in for the first time! Welcome!")).
Proof.
  apply (welcome_message_text (Sample.env_of Sample.harmless)
           {| displayName := Some (lit "Ann") |} Sample.world);
    [intros fields; reflexivity | reflexivity].
Defined.

(** C8 as stated fails for the display name [""]: it is a display name
    [d], and yet the text appended is the one of an anonymous user, not [d]
    followed by [" signed in for the first time! Welcome!"]. *)
Lemma empty_display_name_is_anonymous :
  firestore (addWelcomeMessages (Sample.env_of Sample.harmless)
               {| displayName := Some (lit "") |} Sample.world).2
    !! (lit "messages", lit "welcome1") ≫= lookup (lit "text")
  = Some (VStr (lit "Anonymous signed in for the first time! Welcome!"))
  ∧ ¬ (firestore (addWelcomeMessages (Sample.env_of Sample.harmless)
                    {| displayName := Some (lit "") |} Sample.world).2
         !! (lit "messages", lit "welcome1") ≫= lookup (lit "text")
       = Some (VStr (lit ""
                     ++ lit " signed in for the first time! Welcome!"))).
Proof.
  split; [reflexivity |].
  intros H. vm_compute in H. discriminate.
Qed.

(* ===================================================================== *)
(** ** The notification fan-out *)
(* ===================================================================== *)

Lemma collection_ids_elem (c id : jsstring) (fs : gmap docref document) :
  id ∈ collection_ids c fs ↔ is_Some (fs !! (c, id)).
Proof.
  unfold collection_ids. rewrite list_elem_of_omap. split.
  - intros ([[c' id'] d] & Hin & Hsome). cbn in Hsome.
    case_decide as Hc; [| discriminate]. injection Hsome as ->. subst c'.
    apply elem_of_map_to_list in Hin. eauto.
  - intros [d Hd]. exists ((c, id), d). split.
    + apply elem_of_map_to_list, Hd.
    + cbn. rewrite decide_True by reflexivity. reflexivity.
Qed.

Lemma collection_ids_empty (c : jsstring) (fs : gmap docref document) :
  (∀ id, fs !! (c, id) = None) → collection_ids c fs = [].
Proof.
  intros Hnone. destruct (collection_ids c fs) as [| id ids] eqn:Hids;
    [reflexivity |].
  assert (Hin : id ∈ collection_ids c fs) by (rewrite Hids; left).
  apply collection_ids_elem in Hin as [d Hd]. rewrite Hnone in Hd.
  discriminate.
Qed.

Section Fan_out.

Variable E : Env.

(** C7.  For every invocation of the notification fan-out in which no
    device token is registered in the token collection, the push dispatcher
    is not called and no token deletion is issued: the only call is the
    read of the token collection, and no document changes. *)
Theorem no_tokens_no_dispatch (snapshot : MessageData) (w : World) :
  (∀ id, firestore w !! (lit "fcmTokens", id) = None) →
  ∃ res w',
    sendNotifications E snapshot w = (res, w')
    ∧ calls w' = calls w ++ [CollectionGet (lit "fcmTokens")]
    ∧ count_calls is_send w w' = 0%nat
    ∧ count_calls is_delete w w' = 0%nat
    ∧ firestore w' = firestore w
    ∧ (rejects E (CollectionGet (lit "fcmTokens")) = false → res = Ok tt).
Proof.
  intros Hnone.
  pose proof (collection_ids_empty _ _ Hnone) as Hids.
  unfold sendNotifications, collection_get. cbn zeta.
  unfold bind at 1 2.
  assert (Hcount : ∀ f : call → bool,
            f (CollectionGet (lit "fcmTokens")) = false →
            ∀ w', calls w' = calls w ++ [CollectionGet (lit "fcmTokens")] →
                  count_calls f w w' = 0%nat).
  { intros f Hf w' Hw'. unfold count_calls, new_calls.
    rewrite Hw', drop_app_length.
    rewrite filter_cons_False; [reflexivity |].
    rewrite Hf. discriminate. }
  destruct (rejects E (CollectionGet (lit "fcmTokens"))) eqn:Hrej.
  - rewrite (service_rejected _ _ _ Hrej).
    do 2 eexists. split; [reflexivity |].
    repeat split; try (apply Hcount; reflexivity). discriminate.
  - rewrite (service_ok _ _ _ Hrej). step. rewrite Hids. cbn.
    do 2 eexists. split; [reflexivity |].
    repeat split; apply Hcount; reflexivity.
Qed.

(** A step of the cleanup never changes a document outside the collection
    of the messages. *)
Lemma cleanup_result_other_collections (tokens : list jsstring)
    (tokensDelete : list (outcome unit)) (index : nat) (result : SendResult)
    (w : World) (ref : docref) :
  ref.1 ≠ lit "messages" →
  firestore (cleanup_result E tokens tokensDelete index result w).2 !! ref
  = firestore w !! ref.
Proof.
  intros Href. unfold cleanup_result.
  destruct (error result) as [code |]; [| reflexivity].
  unfold bind at 1. unfold console_log at 1.
  case_decide; [| reflexivity].
  destruct (tokens !! index) as [[| x u] |]; try reflexivity.
  unfold bind at 1. rewrite doc_valid. unfold bind at 1. unfold start.
  destruct (rejects E (DocDelete (lit "messages", x :: u))) eqn:Hrej.
  - rewrite (doc_delete_rejected _ _ _ Hrej). reflexivity.
  - rewrite (doc_delete_ok _ _ _ Hrej). cbn.
    apply lookup_delete_ne. intros <-. apply Href. reflexivity.
Qed.

Lemma cleanup_forEach_other_collections (tokens : list jsstring)
    (results : list SendResult) (tokensDelete : list (outcome unit))
    (index : nat) (w : World) (ref : docref) :
  ref.1 ≠ lit "messages" →
  firestore (cleanup_forEach E tokens tokensDelete index results w).2 !! ref
  = firestore w !! ref.
Proof.
  intros Href.
  revert tokensDelete index w.
  induction results as [| result results IH]; intros tokensDelete index w.
  - reflexivity.
  - cbn [cleanup_forEach]. unfold bind.
    pose proof (cleanup_result_other_collections tokens tokensDelete index
                  result w ref Href) as Hstep.
    destruct (cleanup_result E tokens tokensDelete index result w)
      as [[acc | e] w1]; cbn in Hstep |- *.
    + rewrite IH. exact Hstep.
    + exact Hstep.
Qed.

(** Whatever the dispatcher reports, [cleanupTokens] leaves every record of
    the token collection in place. *)
Lemma cleanupTokens_keeps_fcmTokens (response : list SendResult)
    (tokens : list jsstring) (w : World) (token : jsstring) :
  firestore (cleanupTokens E response tokens w).2 !! (lit "fcmTokens", token)
  = firestore w !! (lit "fcmTokens", token).
Proof.
  unfold cleanupTokens, bind.
  pose proof (cleanup_forEach_other_collections tokens response [] 0 w
                (lit "fcmTokens", token)) as H.
  destruct (cleanup_forEach E tokens [] 0 response w) as [[acc | e] w1];
    cbn in H |- *; apply H; cbn; discriminate.
Qed.

End Fan_out.

(** C7 at a concrete input: a store without tokens. *)
Lemma no_tokens_no_dispatch_witness :
  ∃ res w',
    sendNotifications (Sample.env Sample.harmless Sample.a_b_gone) Sample.hello
      Sample.world_no_tokens = (res, w')
    ∧ calls w'
      = calls Sample.world_no_tokens ++ [CollectionGet (lit "fcmTokens")]
    ∧ count_calls is_send Sample.world_no_tokens w' = 0%nat
    ∧ count_calls is_delete Sample.world_no_tokens w' = 0%nat
    ∧ firestore w' = firestore Sample.world_no_tokens
    ∧ res = Ok tt.
Proof.
  destruct (no_tokens_no_dispatch (Sample.env Sample.harmless Sample.a_b_gone)
              Sample.hello Sample.world_no_tokens)
    as (res & w' & Hrun & Hcalls & Hsend & Hdel & Hfs & Hres).
  - intros id.
    apply (lookup_singleton_ne (M := gmap docref)). intros H. discriminate.
  - exists res, w'. repeat split; try assumption. apply Hres. reflexivity.
Defined.

(** C3 fails on the code.  With token A reported as not registered, token B
    as invalid and token C delivered to, [cleanupTokens] issues its two
    deletions on the collection of the messages, under the ids of the
    tokens: the records of A and B are still in the token collection
    afterwards. *)
Theorem cleanupTokens_deletes_from_messages :
  (cleanupTokens (Sample.env Sample.harmless Sample.a_b_gone)
     [Sample.not_registered; Sample.invalid_token; Sample.delivered]
     [lit "tokenA"; lit "tokenB"; lit "tokenC"] Sample.world).1
  = Ok (Ok tt)
  ∧ new_calls Sample.world
      (cleanupTokens (Sample.env Sample.harmless Sample.a_b_gone)
         [Sample.not_registered; Sample.invalid_token; Sample.delivered]
         [lit "tokenA"; lit "tokenB"; lit "tokenC"] Sample.world).2
    = [DocDelete (lit "messages", lit "tokenA");
       DocDelete (lit "messages", lit "tokenB")]
  ∧ firestore
      (cleanupTokens (Sample.env Sample.harmless Sample.a_b_gone)
         [Sample.not_registered; Sample.invalid_token; Sample.delivered]
         [lit "tokenA"; lit "tokenB"; lit "tokenC"] Sample.world).2
    = firestore Sample.world
  ∧ firestore
      (cleanupTokens (Sample.env Sample.harmless Sample.a_b_gone)
         [Sample.not_registered; Sample.invalid_token; Sample.delivered]
         [lit "tokenA"; lit "tokenB"; lit "tokenC"] Sample.world).2
    !! (lit "fcmTokens", lit "tokenA")
    = Some {[ lit "uid" := VStr (lit "u1") ]}
  ∧ firestore
      (cleanupTokens (Sample.env Sample.harmless Sample.a_b_gone)
         [Sample.not_registered; Sample.invalid_token; Sample.delivered]
         [lit "tokenA"; lit "tokenB"; lit "tokenC"] Sample.world).2
    !! (lit "fcmTokens", lit "tokenB")
    = Some {[ lit "uid" := VStr (lit "u2") ]}.
Proof. repeat split; vm_compute; reflexivity. Qed.

(** The whole fan-out on the same reports: the three tokens are read from
    the token collection and dispatched to, two deletions are issued, and
    the token collection is the same afterwards. *)
Example sendNotifications_keeps_stale_tokens :
  (sendNotifications (Sample.env Sample.harmless Sample.a_b_gone) Sample.hello
     Sample.world).1 = Ok tt
  ∧ count_calls is_send Sample.world
      (sendNotifications (Sample.env Sample.harmless Sample.a_b_gone)
         Sample.hello Sample.world).2 = 1%nat
  ∧ filter (λ c, is_delete c = true)
      (new_calls Sample.world
         (sendNotifications (Sample.env Sample.harmless Sample.a_b_gone)
            Sample.hello Sample.world).2)
    ≡ₚ [DocDelete (lit "messages", lit "tokenA");
        DocDelete (lit "messages", lit "tokenB")]
  ∧ collection_ids (lit "fcmTokens")
      (firestore (sendNotifications (Sample.env Sample.harmless Sample.a_b_gone)
                    Sample.hello Sample.world).2)
    = collection_ids (lit "fcmTokens") (firestore Sample.world).
Proof.
  repeat split; try (vm_compute; reflexivity).
  vm_compute. first [reflexivity | apply perm_swap].
Qed.

(** The payload handed to the dispatcher is [notification]. *)
Example sendNotifications_dispatches_notification :
  ∃ tokens,
    new_calls Sample.world
      (sendNotifications (Sample.env Sample.harmless Sample.a_b_gone)
         Sample.hello Sample.world).2 !! 1%nat
    = Some (SendToDevice tokens
              (notification (Sample.env Sample.harmless Sample.a_b_gone)
                 Sample.hello))
    ∧ tokens ≡ₚ [lit "tokenA"; lit "tokenB"; lit "tokenC"].
Proof.
  eexists. split; [vm_compute; reflexivity |].
  apply (bool_decide_unpack _). vm_compute. reflexivity.
Qed.

(* ===================================================================== *)
(** ** Paths: segments, message id, scratch file *)
(* ===================================================================== *)

Lemma split_nonempty (sep : N) (s : jsstring) : split sep s ≠ [].
Proof.
  destruct s as [| c s]; cbn; [discriminate |].
  destruct (N.eqb c sep); [discriminate |].
  destruct (split sep s); discriminate.
Qed.

(** A string without the separator is its own single segment. *)
Lemma split_no_sep (sep : N) (s : jsstring) : sep ∉ s → split sep s = [s].
Proof.
  induction s as [| c s IH]; intros Hs; [reflexivity |].
  cbn. rewrite not_elem_of_cons in Hs. destruct Hs as [Hc Hs].
  destruct (N.eqb_spec c sep) as [-> | _]; [congruence |].
  rewrite (IH Hs). reflexivity.
Qed.

(** Splitting after a separator: the segments of the two sides, in order. *)
Lemma split_app_sep (sep : N) (a b : jsstring) :
  split sep (a ++ sep :: b) = split sep a ++ split sep b.
Proof.
  induction a as [| c a IH]; cbn.
  - rewrite N.eqb_refl. reflexivity.
  - destruct (N.eqb c sep); [rewrite IH; reflexivity |].
    rewrite IH. pose proof (split_nonempty sep a) as Hne.
    destruct (split sep a) as [| seg segs]; [congruence | reflexivity].
Qed.

(** Joining the segments with the separator gives the string back. *)
Lemma join_with_split (sep : N) (s : jsstring) :
  join_with sep (split sep s) = s.
Proof.
  induction s as [| c s IH]; [reflexivity |].
  cbn [split]. pose proof (split_nonempty sep s) as Hne.
  destruct (N.eqb_spec c sep) as [-> | Hc].
  - destruct (split sep s) as [| seg segs]; [congruence |].
    cbn in IH |- *. rewrite IH. reflexivity.
  - destruct (split sep s) as [| seg segs]; [congruence |].
    destruct segs as [| seg' segs]; cbn in IH |- *; rewrite <- IH; reflexivity.
Qed.

(** X1.  [blurImage] finds no message id exactly when the object path
    contains no separator. *)
Theorem messageId_none_iff (filePath : jsstring) :
  messageId filePath = None ↔ path.sep ∉ filePath.
Proof.
  unfold messageId. split.
  - intros Hnone Hin.
    apply list_elem_of_split in Hin as (a & b & ->).
    rewrite split_app_sep in Hnone.
    pose proof (split_nonempty path.sep a) as Ha.
    pose proof (split_nonempty path.sep b) as Hb.
    apply lookup_ge_None in Hnone. rewrite length_app in Hnone.
    destruct (split path.sep a), (split path.sep b); cbn in Hnone;
      try congruence; lia.
  - intros Hs. rewrite (split_no_sep _ _ Hs). reflexivity.
Qed.

(** X2.  The message id is the second segment: for a path
    [dir/id/rest] where [dir] and [id] contain no separator it is [id],
    whatever follows; for a path [dir/file] with only two segments it is
    the file name. *)
Theorem messageId_second_segment (dir id rest : jsstring) :
  path.sep ∉ dir →
  path.sep ∉ id →
  messageId (dir ++ path.sep :: id ++ path.sep :: rest) = Some id
  ∧ messageId (dir ++ path.sep :: id) = Some id.
Proof.
  intros Hdir Hid. unfold messageId.
  rewrite !split_app_sep, (split_no_sep _ _ Hdir), (split_no_sep _ _ Hid).
  split; reflexivity.
Qed.

Lemma last_filter_snoc {A} (P : A → Prop) `{∀ x, Decision (P x)}
    (l : list A) (x d : A) :
  P x → List.last (filter P (l ++ [x])) d = x.
Proof.
  intros Hx. rewrite filter_app, filter_cons_True, filter_nil by exact Hx.
  apply last_last.
Qed.

(** The base name of [dir/name] is [name]. *)
Lemma basename_app (dir name : jsstring) :
  path.sep ∉ name → name ≠ [] →
  path.basename (dir ++ path.sep :: name) = name.
Proof.
  intros Hsep Hne. unfold path.basename.
  rewrite split_app_sep, (split_no_sep _ _ Hsep).
  apply (last_filter_snoc (λ seg : jsstring, seg ≠ [])). exact Hne.
Qed.

(** X3.  The scratch file depends on the base name only: two objects with
    the same file name in different folders are staged in the same local
    file. *)
Theorem same_name_same_scratch_file (E : Env) (dir1 dir2 name : jsstring) :
  path.sep ∉ name →
  name ≠ [] →
  tempLocalFile E (dir1 ++ path.sep :: name)
  = tempLocalFile E (dir2 ++ path.sep :: name)
  ∧ tempLocalFile E (dir1 ++ path.sep :: name) = path.join (tmpdir E) name.
Proof.
  intros Hsep Hne. unfold tempLocalFile.
  rewrite !basename_app by assumption. split; reflexivity.
Qed.

(** X2 at the path of the specification. *)
Lemma messageId_second_segment_witness :
  messageId (lit "images" ++ path.sep :: lit "msg123" ++ path.sep :: lit "photo.png")
  = Some (lit "msg123")
  ∧ messageId (lit "images" ++ path.sep :: lit "msg123") = Some (lit "msg123").
Proof.
  apply (messageId_second_segment (lit "images") (lit "msg123") (lit "photo.png"));
    compute_done.
Defined.

(** X3 at two photos called [photo.png]. *)
Lemma same_name_same_scratch_file_witness :
  tempLocalFile (Sample.env_of Sample.harmless)
    (lit "images/msg123" ++ path.sep :: lit "photo.png")
  = tempLocalFile (Sample.env_of Sample.harmless)
      (lit "images/msg456" ++ path.sep :: lit "photo.png")
  ∧ tempLocalFile (Sample.env_of Sample.harmless)
      (lit "images/msg123" ++ path.sep :: lit "photo.png")
    = path.join (tmpdir (Sample.env_of Sample.harmless)) (lit "photo.png").
Proof.
  apply (same_name_same_scratch_file (Sample.env_of Sample.harmless)
           (lit "images/msg123") (lit "images/msg456") (lit "photo.png"));
    compute_done.
Defined.

(* ===================================================================== *)
(** ** More on the notification payload *)
(* ===================================================================== *)

Section Payload_more.

Variable E : Env.

Lemma notification_body_empty_iff (snapshot : MessageData) :
  body (notification E snapshot) = [] ↔ truthy (text snapshot) = false.
Proof.
  unfold notification; cbn [body].
  destruct (text snapshot) as [[| c s] |]; cbn [truthy]; try tauto.
  split; [| discriminate].
  destruct (length (c :: s) <=? 100)%nat; [discriminate |].
  change (substring (c :: s) 0 97) with (c :: take 96 s). discriminate.
Qed.

(** X4.  Title and body of a notification agree: the title announces an
    image exactly when the body is empty, and a message otherwise. *)
Theorem notification_title_matches_body (snapshot : MessageData) :
  title (notification E snapshot)
  = template (name snapshot) ++ lit " posted "
    ++ (if decide (body (notification E snapshot) = [])
        then lit "an image" else lit "a message").
Proof.
  destruct (decide (body (notification E snapshot) = [])) as [Hb | Hb].
  - apply notification_body_empty_iff in Hb.
    unfold notification; cbn [title]. rewrite Hb. reflexivity.
  - assert (Ht : truthy (text snapshot) = true).
    { destruct (truthy (text snapshot)) eqn:Ht; [reflexivity |].
      exfalso. apply Hb. apply notification_body_empty_iff, Ht. }
    unfold notification; cbn [title]. rewrite Ht. reflexivity.
Qed.

(** X5.  The icon of a notification is the profile picture of the message
    when that is a non-empty string, and the placeholder when it is missing
    or empty; it is therefore never the empty string. *)
Theorem notification_icon_never_empty (snapshot : MessageData) :
  icon (notification E snapshot)
  = match profilePicUrl snapshot with
    | Some (c :: u) => c :: u
    | Some [] | None => lit "/images/profile_placeholder.png"
    end
  ∧ icon (notification E snapshot) ≠ [].
Proof.
  unfold notification; cbn [icon].
  destruct (profilePicUrl snapshot) as [[| c u] |]; cbn [or_else].
  - split; [reflexivity | compute_done].
  - split; [reflexivity | discriminate].
  - split; [reflexivity | compute_done].
Qed.

End Payload_more.

(* ===================================================================== *)
(** ** Frames of the services *)
(* ===================================================================== *)

Section Frames.

Variable E : Env.
Variables (objs fs : jsstring → Prop) (docs : docref → Prop).

#[global] Instance frame_refl : Reflexive (frame objs fs docs).
Proof. intros w. repeat split; reflexivity. Qed.

#[global] Instance frame_trans : Transitive (frame objs fs docs).
Proof.
  intros w1 w2 w3 (Ho & Hf & Hd) (Ho' & Hf' & Hd'). repeat split; intros x Hx.
  - rewrite Ho', Ho by exact Hx. reflexivity.
  - rewrite Hf', Hf by exact Hx. reflexivity.
  - rewrite Hd', Hd by exact Hx. reflexivity.
Qed.

Lemma respects_bind {A B} (R : World → World → Prop) `{!Transitive R}
    (m : M A) (k : A → M B) :
  respects R m → (∀ a, respects R (k a)) → respects R (bind m k).
Proof.
  intros Hm Hk w. unfold bind. specialize (Hm w).
  destruct (m w) as [[a | e] w1]; cbn in *; [| exact Hm].
  transitivity w1; [exact Hm | apply Hk].
Qed.

Lemma respects_ret {A} (R : World → World → Prop) `{!Reflexive R} (a : A) :
  respects R (ret a).
Proof. intros w. cbn. reflexivity. Qed.

Lemma respects_throw {A} (R : World → World → Prop) `{!Reflexive R} (e : exn) :
  respects R (@throw A e).
Proof. intros w. cbn. reflexivity. Qed.

Lemma respects_throw_bind {A B} (R : World → World → Prop) `{!Reflexive R}
    (e : exn) (k : A → M B) :
  respects R (bind (throw e) k).
Proof. intros w. cbn. reflexivity. Qed.

Lemma respects_ret_bind {A B} (R : World → World → Prop) (a : A) (k : A → M B) :
  respects R (k a) → respects R (bind (ret a) k).
Proof. intros Hk w. apply Hk. Qed.

Lemma respects_start {A} (R : World → World → Prop) (m : M A) :
  respects R m → respects R (start m).
Proof. intros Hm w. unfold start. specialize (Hm w). destruct (m w). exact Hm. Qed.

Lemma respects_await {A} (R : World → World → Prop) `{!Reflexive R}
    (p : outcome A) :
  respects R (await p).
Proof. destruct p; [apply respects_ret | apply respects_throw]; exact _. Qed.

Lemma frame_console_log (args : list jsstring) :
  respects (frame objs fs docs) (console_log args).
Proof. intros w. repeat split; reflexivity. Qed.

Lemma frame_service (c : call) : respects (frame objs fs docs) (service E c).
Proof.
  intros w. destruct (service_frame E c w) as [r ->].
  repeat split; reflexivity.
Qed.

Lemma frame_download (src dest : jsstring) :
  fs dest → respects (frame objs fs docs) (download E src dest).
Proof.
  intros Hdest. apply respects_bind; [exact _ | apply frame_service |].
  intros _ w. step. destruct (storage w !! src); cbn; [| reflexivity].
  repeat split; cbn; try reflexivity.
  intros f Hf. apply lookup_insert_ne. congruence.
Qed.

Lemma frame_spawn_convert_blur (file : jsstring) :
  fs file → respects (frame objs fs docs) (spawn_convert_blur E file).
Proof.
  intros Hfile. apply respects_bind; [exact _ | apply frame_service |].
  intros _ w. step. destruct (files w !! file) as [b |]; cbn; [| reflexivity].
  destruct (convert_blur E b); cbn; [| reflexivity].
  repeat split; cbn; try reflexivity.
  intros f Hf. apply lookup_insert_ne. congruence.
Qed.

Lemma frame_upload (src dest : jsstring) :
  objs dest → respects (frame objs fs docs) (upload E src dest).
Proof.
  intros Hdest. apply respects_bind; [exact _ | apply frame_service |].
  intros _ w. step. destruct (files w !! src); cbn; [| reflexivity].
  repeat split; cbn; try reflexivity.
  intros q Hq. apply lookup_insert_ne. congruence.
Qed.

Lemma frame_unlinkSync (file : jsstring) :
  fs file → respects (frame objs fs docs) (unlinkSync file).
Proof.
  intros Hfile w. unfold unlinkSync. step.
  destruct (files w !! file); cbn; [| repeat split; reflexivity].
  repeat split; cbn; try reflexivity.
  intros f Hf. apply lookup_delete_ne. congruence.
Qed.

Lemma frame_doc_update (ref : docref) (fields : document) :
  docs ref → respects (frame objs fs docs) (doc_update E ref fields).
Proof.
  intros Href. apply respects_bind; [exact _ | apply frame_service |].
  intros _ w. step. destruct (firestore w !! ref); cbn; [| reflexivity].
  repeat split; cbn; try reflexivity.
  intros r Hr. apply lookup_insert_ne. congruence.
Qed.

Lemma frame_doc_delete (ref : docref) :
  docs ref → respects (frame objs fs docs) (doc_delete E ref).
Proof.
  intros Href. apply respects_bind; [exact _ | apply frame_service |].
  intros _ w. step. repeat split; cbn; try reflexivity.
  intros r Hr. apply lookup_delete_ne. congruence.
Qed.

Lemma frame_collection_add (c : jsstring) (fields : document) :
  docs (c, auto_id E) → respects (frame objs fs docs) (collection_add E c fields).
Proof.
  intros Href. apply respects_bind; [exact _ | apply frame_service |].
  intros _ w. step. destruct (firestore w !! (c, auto_id E)); cbn; [reflexivity |].
  repeat split; cbn; try reflexivity.
  intros r Hr. apply lookup_insert_ne. congruence.
Qed.

Lemma frame_collection_get (c : jsstring) :
  respects (frame objs fs docs) (collection_get E c).
Proof.
  apply respects_bind; [exact _ | apply frame_service |].
  intros _ w. step. reflexivity.
Qed.

Lemma frame_sendToDevice (tokens : list jsstring) (payload : Notification) :
  respects (frame objs fs docs) (sendToDevice E tokens payload).
Proof.
  apply respects_bind; [exact _ | apply frame_service |].
  intros _. apply respects_ret. exact _.
Qed.

End Frames.

(* ===================================================================== *)
(** ** More on the moderation pipeline *)
(* ===================================================================== *)

Section Moderation_more.

Variable E : Env.

(** What [blurImage] may change. *)
Lemma blurImage_frame (filePath : jsstring) :
  respects
    (frame (eq filePath) (eq (tempLocalFile E filePath))
       (λ r, moderated_ref filePath = Some r))
    (blurImage E filePath).
Proof.
  unfold blurImage. fold (messageId filePath). fold (tempLocalFile E filePath).
  repeat (apply respects_bind;
          [ exact _
          | first [ apply frame_download | apply frame_spawn_convert_blur
                  | apply frame_upload | apply frame_unlinkSync
                  | apply frame_console_log ]; reflexivity
          | intros _ ]).
  unfold moderated_ref.
  destruct (messageId filePath) as [[| x u] |].
  - apply respects_throw_bind. exact _.
  - apply respects_ret_bind.
    apply respects_bind; [exact _ | apply frame_doc_update; reflexivity |].
    intros _. apply frame_console_log.
  - apply respects_throw_bind. exact _.
Qed.

(** X6.  Whatever the classifier and the services answer, and whether the
    handler returns or throws, [blurOffensiveImages] changes no object of
    the bucket other than the one just uploaded, no local file other than
    its scratch file, and no document other than the message that the path
    names. *)
Theorem blurOffensiveImages_frame (o : object.metadata) (w : World) :
  frame (eq (object.name o)) (eq (tempLocalFile E (object.name o)))
    (λ r, moderated_ref (object.name o) = Some r)
    w (blurOffensiveImages E o w).2.
Proof.
  revert w. change (respects
    (frame (eq (object.name o)) (eq (tempLocalFile E (object.name o)))
       (λ r, moderated_ref (object.name o) = Some r))
    (blurOffensiveImages E o)).
  unfold blurOffensiveImages, safeSearchDetection.
  apply respects_bind; [exact _ | |].
  { apply respects_bind; [exact _ | apply frame_service |].
    intros _. apply respects_ret. exact _. }
  intros [r |].
  - apply respects_ret_bind.
    destruct (inappropriate r).
    + apply respects_bind; [exact _ | apply frame_console_log |].
      intros _. apply blurImage_frame.
    + apply frame_console_log.
  - apply respects_throw_bind. exact _.
Qed.

(** X7.  When the classifier call fails, the handler fails with that error
    and does nothing else: no log line, no further call, nothing stored
    changes. *)
Theorem classifier_failure_stops_handler (o : object.metadata) (w : World) :
  rejects E (SafeSearchDetection (imageUri o)) = true →
  blurOffensiveImages E o w
  = (Throw (ServiceError (SafeSearchDetection (imageUri o))),
     add_call (SafeSearchDetection (imageUri o)) w).
Proof.
  intros Hrej. unfold blurOffensiveImages, safeSearchDetection.
  fold (imageUri o). unfold bind at 1 2.
  rewrite (service_rejected _ _ _ Hrej). reflexivity.
Qed.

(** X8.  When the classifier answers without an annotation, reading the
    likelihoods throws a type error: the handler fails before any log line
    and before any download, upload or update. *)
Theorem missing_annotation_throws (o : object.metadata) (w : World) :
  rejects E (SafeSearchDetection (imageUri o)) = false →
  safeSearch E (imageUri o) = None →
  blurOffensiveImages E o w
  = (Throw TypeError, add_call (SafeSearchDetection (imageUri o)) w).
Proof.
  intros Hrej Hnone. unfold blurOffensiveImages, safeSearchDetection.
  fold (imageUri o). unfold bind at 1 2.
  rewrite (service_ok _ _ _ Hrej). step. rewrite Hnone. reflexivity.
Qed.

(** X9.  When the download of a (non-empty) object path fails, because
    the bucket rejects it or because the object is no longer there,
    [blurImage] fails having issued that one call: no transform, upload,
    deletion or update is attempted, nothing is logged, and the bucket and
    the documents are unchanged. *)
Theorem download_failure_stops_blurImage (filePath : jsstring) (w : World) :
  filePath ≠ [] →
  rejects E (Download filePath (tempLocalFile E filePath)) = true
  ∨ storage w !! filePath = None →
  ∃ e w',
    blurImage E filePath w = (Throw e, w')
    ∧ calls w' = calls w ++ [Download filePath (tempLocalFile E filePath)]
    ∧ storage w' = storage w
    ∧ firestore w' = firestore w
    ∧ console w' = console w.
Proof.
  intros _ Hfail.
  destruct (blurImage_download_failed E filePath w Hfail) as [e ->].
  do 2 eexists. split; [reflexivity |]. repeat split.
Qed.

(** X10.  The two-step commit of [blurImage] is not atomic: when download,
    transform and re-upload succeed but the message addressed by the path
    does not exist, or its update is rejected, [blurImage] fails with the
    object already replaced by the blurred content and no document
    changed. *)
Theorem failed_update_leaves_blurred_object (filePath : jsstring)
    (b b' : blob) (ref : docref) (w : World) :
  let tmp := tempLocalFile E filePath in
  storage w !! filePath = Some b →
  rejects E (Download filePath tmp) = false →
  rejects E (SpawnConvertBlur tmp) = false →
  convert_blur E b = Some b' →
  rejects E (Upload tmp filePath) = false →
  moderated_ref filePath = Some ref →
  firestore w !! ref = None
  ∨ rejects E (DocUpdate ref {[ lit "moderated" := VBool true ]}) = true →
  ∃ e w',
    blurImage E filePath w = (Throw e, w')
    ∧ storage w' = <[filePath := b']> (storage w)
    ∧ firestore w' = firestore w
    ∧ files w' !! tmp = None.
Proof.
  intros tmp Hobj Hdl Hsp Hconv Hup Href Hfail.
  destruct (blurImage_until_unlink E filePath b b' w Hobj Hdl Hsp Hconv Hup)
    as (w1 & -> & Hst1 & Hfi1 & Hfs1 & _).
  destruct (mark_moderated_cases E filePath w1)
    as (res & w' & -> & Hst & Hfi & Hcases).
  unfold moderated_ref in Href.
  destruct (messageId filePath) as [[| x u] |]; try discriminate.
  injection Href as <-. cbn zeta in Hcases.
  destruct Hcases as [_ [(d & Hd & Hok & _) | (_ & [e ->] & Hfs)]].
  - rewrite Hfs1 in Hd. destruct Hfail; congruence.
  - exists e, w'. split; [reflexivity |].
    repeat split; [congruence | congruence |].
    rewrite Hfi, Hfi1. apply lookup_delete_eq.
Qed.

(** X11.  When the whole blur path succeeds, the update merges the flag
    into the message: the message has [moderated = true] and every other
    field it had before. *)
Theorem moderated_flag_is_merged (filePath : jsstring)
    (b b' : blob) (ref : docref) (d : document) (w : World) :
  let tmp := tempLocalFile E filePath in
  storage w !! filePath = Some b →
  rejects E (Download filePath tmp) = false →
  rejects E (SpawnConvertBlur tmp) = false →
  convert_blur E b = Some b' →
  rejects E (Upload tmp filePath) = false →
  moderated_ref filePath = Some ref →
  firestore w !! ref = Some d →
  rejects E (DocUpdate ref {[ lit "moderated" := VBool true ]}) = false →
  ∃ w' d',
    blurImage E filePath w = (Ok tt, w')
    ∧ firestore w' !! ref = Some d'
    ∧ d' !! lit "moderated" = Some (VBool true)
    ∧ ∀ field, field ≠ lit "moderated" → d' !! field = d !! field.
Proof.
  intros tmp Hobj Hdl Hsp Hconv Hup Href Hd Hok.
  destruct (blurImage_until_unlink E filePath b b' w Hobj Hdl Hsp Hconv Hup)
    as (w1 & -> & _ & _ & Hfs1 & _).
  destruct (mark_moderated_cases E filePath w1)
    as (res & w' & -> & _ & _ & Hcases).
  unfold moderated_ref in Href.
  destruct (messageId filePath) as [[| x u] |]; try discriminate.
  injection Href as <-. cbn zeta in Hcases.
  rewrite Hfs1 in Hcases.
  destruct Hcases as [_ [(d0 & Hd0 & _ & -> & Hfs) | ([Hnone | Hrej] & _)]];
    [| congruence | congruence].
  rewrite Hd in Hd0. injection Hd0 as <-.
  exists w', ({[ lit "moderated" := VBool true ]} ∪ d).
  split; [reflexivity |]. split; [rewrite Hfs; apply lookup_insert_eq |].
  split.
  - apply lookup_union_Some_l, lookup_singleton_eq.
  - intros field Hfield. rewrite lookup_union_r; [reflexivity |].
    apply lookup_singleton_ne. congruence.
Qed.

End Moderation_more.

(* ===================================================================== *)
(** ** The order of the calls *)
(* ===================================================================== *)

Lemma issues_prefix_silent {A} (cs : list call) (m : M A) :
  (∀ w, calls (m w).2 = calls w) → issues_prefix cs m.
Proof. intros Hm w. exists 0%nat. rewrite Hm, app_nil_r. reflexivity. Qed.

Lemma issues_prefix_bind_silent {A B} (cs : list call) (m : M A) (k : A → M B) :
  (∀ w, calls (m w).2 = calls w) →
  (∀ a, issues_prefix cs (k a)) →
  issues_prefix cs (bind m k).
Proof.
  intros Hm Hk w. unfold bind. specialize (Hm w).
  destruct (m w) as [[a | e] w1]; cbn in *.
  - destruct (Hk a w1) as [n Hn]. exists n. rewrite Hn, Hm. reflexivity.
  - exists 0%nat. rewrite Hm, app_nil_r. reflexivity.
Qed.

Lemma issues_prefix_bind_call {A B} (c : call) (cs : list call)
    (m : M A) (k : A → M B) :
  (∀ w, calls (m w).2 = calls w ++ [c]) →
  (∀ a, issues_prefix cs (k a)) →
  issues_prefix (c :: cs) (bind m k).
Proof.
  intros Hm Hk w. unfold bind. specialize (Hm w).
  destruct (m w) as [[a | e] w1]; cbn in *.
  - destruct (Hk a w1) as [n Hn]. exists (S n).
    rewrite Hn, Hm, <- app_assoc. reflexivity.
  - exists 1%nat. rewrite Hm. reflexivity.
Qed.

Lemma issues_prefix_call {A} (c : call) (cs : list call) (m : M A) :
  (∀ w, calls (m w).2 = calls w ++ [c]) → issues_prefix (c :: cs) m.
Proof. intros Hm w. exists 1%nat. rewrite Hm. reflexivity. Qed.

Section Calls.

Variable E : Env.

Lemma service_calls (c : call) (w : World) :
  calls (service E c w).2 = calls w ++ [c].
Proof. destruct (service_frame E c w) as [r ->]. reflexivity. Qed.

Lemma download_calls (src dest : jsstring) (w : World) :
  calls (download E src dest w).2 = calls w ++ [Download src dest].
Proof.
  unfold download, bind.
  destruct (service_frame E (Download src dest) w) as [[[] | e] ->];
    [| reflexivity].
  step. destruct (storage w !! src); reflexivity.
Qed.

Lemma spawn_convert_blur_calls (file : jsstring) (w : World) :
  calls (spawn_convert_blur E file w).2 = calls w ++ [SpawnConvertBlur file].
Proof.
  unfold spawn_convert_blur, bind.
  destruct (service_frame E (SpawnConvertBlur file) w) as [[[] | e] ->];
    [| reflexivity].
  step. destruct (files w !! file) as [b |]; [| reflexivity].
  destruct (convert_blur E b); reflexivity.
Qed.

Lemma upload_calls (src dest : jsstring) (w : World) :
  calls (upload E src dest w).2 = calls w ++ [Upload src dest].
Proof.
  unfold upload, bind.
  destruct (service_frame E (Upload src dest) w) as [[[] | e] ->];
    [| reflexivity].
  step. destruct (files w !! src); reflexivity.
Qed.

Lemma unlinkSync_calls (file : jsstring) (w : World) :
  calls (unlinkSync file w).2 = calls w ++ [UnlinkSync file].
Proof. unfold unlinkSync. step. destruct (files w !! file); reflexivity. Qed.

Lemma doc_update_calls (ref : docref) (fields : document) (w : World) :
  calls (doc_update E ref fields w).2 = calls w ++ [DocUpdate ref fields].
Proof.
  unfold doc_update, bind.
  destruct (service_frame E (DocUpdate ref fields) w) as [[[] | e] ->];
    [| reflexivity].
  step. destruct (firestore w !! ref); reflexivity.
Qed.

Lemma console_log_calls (args : list jsstring) (w : World) :
  calls (console_log args w).2 = calls w.
Proof. reflexivity. Qed.

(** The calls of [blurImage] are a prefix of [blur_calls]. *)
Lemma blurImage_issues_prefix (filePath : jsstring) :
  issues_prefix (blur_calls E filePath) (blurImage E filePath).
Proof.
  unfold blurImage, blur_calls.
  fold (messageId filePath). fold (tempLocalFile E filePath).
  cbn [app].
  apply issues_prefix_bind_call; [apply download_calls | intros _].
  apply issues_prefix_bind_silent; [apply console_log_calls | intros _].
  apply issues_prefix_bind_call; [apply spawn_convert_blur_calls | intros _].
  apply issues_prefix_bind_silent; [apply console_log_calls | intros _].
  apply issues_prefix_bind_call; [apply upload_calls | intros _].
  apply issues_prefix_bind_silent; [apply console_log_calls | intros _].
  apply issues_prefix_bind_call; [apply unlinkSync_calls | intros _].
  apply issues_prefix_bind_silent; [apply console_log_calls | intros _].
  unfold moderated_ref.
  destruct (messageId filePath) as [[| x u] |].
  - apply issues_prefix_silent. reflexivity.
  - intros w. unfold bind at 1. rewrite doc_valid.
    apply (issues_prefix_bind_call _ [] (doc_update E _ _));
      [apply doc_update_calls | intros _].
    apply issues_prefix_silent. reflexivity.
  - apply issues_prefix_silent. reflexivity.
Qed.

End Calls.

(** X12.  In every outcome, the calls of one invocation of
    [blurOffensiveImages] are the classification followed by an initial
    part of: download, blur transform, upload, deletion of the scratch
    file, update of the message.  No step is repeated or taken out of
    order; nothing is uploaded that was not downloaded and transformed, and
    no message is updated before the upload. *)
Theorem blurOffensiveImages_calls_in_order (E : Env) (o : object.metadata)
    (w : World) :
  ∃ done,
    calls (blurOffensiveImages E o w).2
    = calls w ++ SafeSearchDetection (imageUri o) :: done
    ∧ done `prefix_of` blur_calls E (object.name o).
Proof.
  unfold blurOffensiveImages, safeSearchDetection. fold (imageUri o).
  unfold bind at 1 2.
  destruct (service_frame E (SafeSearchDetection (imageUri o)) w)
    as [[[] | e] ->].
  - unfold ret at 1.
    set (w1 := add_call (SafeSearchDetection (imageUri o)) w).
    assert (Hrest : ∃ n, calls
              ((do safeSearchResult <-
                  match safeSearch E (imageUri o) with
                  | Some r => ret r
                  | None => throw TypeError
                  end;
                if inappropriate safeSearchResult
                then console_log [lit "The image"; object.name o;
                                  lit "has been detected as inappropriate."] ;;
                     blurImage E (object.name o)
                else console_log [lit "The image"; object.name o;
                                  lit "has been detected as OK."]) w1).2
              = calls w1 ++ take n (blur_calls E (object.name o))).
    { destruct (safeSearch E (imageUri o)) as [r |].
      - unfold bind at 1. unfold ret at 1.
        destruct (inappropriate r).
        + apply (issues_prefix_bind_silent _ (console_log _));
            [apply console_log_calls | intros _].
          apply blurImage_issues_prefix.
        + exists 0%nat. cbn. rewrite !app_nil_r. reflexivity.
      - exists 0%nat. cbn. rewrite !app_nil_r. reflexivity. }
    destruct Hrest as [n Hn].
    exists (take n (blur_calls E (object.name o))). split.
    + rewrite Hn. subst w1. cbn [calls add_call].
      rewrite <- app_assoc. reflexivity.
    + apply prefix_take.
  - exists []. split; [reflexivity | apply prefix_nil].
Qed.

(** X7 at a concrete input: the classifier is down. *)
Lemma classifier_failure_stops_handler_witness :
  blurOffensiveImages Sample.env_services_down Sample.photo Sample.world
  = (Throw (ServiceError (SafeSearchDetection (imageUri Sample.photo))),
     add_call (SafeSearchDetection (imageUri Sample.photo)) Sample.world).
Proof.
  apply (classifier_failure_stops_handler Sample.env_services_down
           Sample.photo Sample.world).
  reflexivity.
Defined.

(** X8 at a concrete input: a response without annotation. *)
Lemma missing_annotation_throws_witness :
  blurOffensiveImages Sample.env_no_annotation Sample.photo Sample.world
  = (Throw TypeError,
     add_call (SafeSearchDetection (imageUri Sample.photo)) Sample.world).
Proof.
  apply (missing_annotation_throws Sample.env_no_annotation
           Sample.photo Sample.world); reflexivity.
Defined.

(** X9 at a concrete input: the bucket rejects the download. *)
Lemma download_failure_stops_blurImage_witness :
  ∃ e w',
    blurImage (Sample.env_download_fails Sample.likely_adult)
      (lit "images/msg123/photo.png") Sample.world = (Throw e, w')
    ∧ calls w'
      = calls Sample.world
        ++ [Download (lit "images/msg123/photo.png")
              (tempLocalFile (Sample.env_download_fails Sample.likely_adult)
                 (lit "images/msg123/photo.png"))]
    ∧ storage w' = storage Sample.world
    ∧ firestore w' = firestore Sample.world
    ∧ console w' = console Sample.world.
Proof.
  apply (download_failure_stops_blurImage
           (Sample.env_download_fails Sample.likely_adult)
           (lit "images/msg123/photo.png") Sample.world).
  - discriminate.
  - left. reflexivity.
Defined.

(** X10 at a concrete input: the photo of a message that is not stored. *)
Lemma failed_update_leaves_blurred_object_witness :
  ∃ e w',
    blurImage (Sample.env_of Sample.likely_adult)
      (lit "images/msg999/photo.png") Sample.world_orphan = (Throw e, w')
    ∧ storage w'
      = <[lit "images/msg999/photo.png" := [9; 8; 7]%N]>
          (storage Sample.world_orphan)
    ∧ firestore w' = firestore Sample.world_orphan
    ∧ files w' !! tempLocalFile (Sample.env_of Sample.likely_adult)
                    (lit "images/msg999/photo.png") = None.
Proof.
  apply (failed_update_leaves_blurred_object (Sample.env_of Sample.likely_adult)
           (lit "images/msg999/photo.png") [7; 8; 9]%N [9; 8; 7]%N
           (lit "messages", lit "msg999") Sample.world_orphan);
    try reflexivity.
  left. reflexivity.
Defined.

(** X11 at the scenario of the specification: the message keeps its name
    and its image URL. *)
Lemma moderated_flag_is_merged_witness :
  ∃ w' d',
    blurImage (Sample.env_of Sample.likely_adult)
      (lit "images/msg123/photo.png") Sample.world = (Ok tt, w')
    ∧ firestore w' !! (lit "messages", lit "msg123") = Some d'
    ∧ d' !! lit "moderated" = Some (VBool true)
    ∧ d' !! lit "name" = Some (VStr (lit "Ann"))
    ∧ d' !! lit "imageUrl" = Some (VStr (lit "images/msg123/photo.png")).
Proof.
  destruct (moderated_flag_is_merged (Sample.env_of Sample.likely_adult)
              (lit "images/msg123/photo.png") [1; 2; 3]%N [3; 2; 1]%N
              (lit "messages", lit "msg123")
              {[ lit "name" := VStr (lit "Ann");
                 lit "imageUrl" := VStr (lit "images/msg123/photo.png") ]}
              Sample.world)
    as (w' & d' & Hrun & Hd' & Hflag & Hrest); try reflexivity.
  exists w', d'. repeat split; try assumption.
  - rewrite Hrest by compute_done. reflexivity.
  - rewrite Hrest by compute_done. reflexivity.
Defined.

(* ===================================================================== *)
(** ** More on the notification fan-out *)
(* ===================================================================== *)

Lemma stale_tokens_cons (t : jsstring) (tokens : list jsstring)
    (result : SendResult) (response : list SendResult) :
  stale_tokens (t :: tokens) (result :: response)
  = (if token_gone result then [t] else []) ++ stale_tokens tokens response.
Proof.
  unfold stale_tokens. cbn [zip zip_with].
  destruct (token_gone result) eqn:Hg.
  - rewrite filter_cons_True by exact Hg. reflexivity.
  - rewrite filter_cons_False by (cbn; rewrite Hg; discriminate). reflexivity.
Qed.

Lemma stale_tokens_nil_r (tokens : list jsstring) : stale_tokens tokens [] = [].
Proof. unfold stale_tokens. destruct tokens; reflexivity. Qed.

Lemma after_deletes_app (E : Env) (l1 l2 : list jsstring)
    (fs : gmap docref document) :
  after_deletes E (l1 ++ l2) fs = after_deletes E l2 (after_deletes E l1 fs).
Proof. unfold after_deletes. apply foldl_app. Qed.

Section Fan_out_more.

Variable E : Env.

(** One round of the loop of [cleanupTokens], for a result whose token
    exists: nothing but a log line unless the token is reported gone; one
    deletion, issued whether or not the store then accepts it, if it is. *)
Lemma cleanup_result_spec (tokens : list jsstring)
    (tokensDelete : list (outcome unit)) (index : nat) (result : SendResult)
    (t : jsstring) (w : World) :
  tokens !! index = Some t →
  t ≠ [] →
  ∃ w1,
    cleanup_result E tokens tokensDelete index result w
    = (Ok (tokensDelete
           ++ (if token_gone result then [delete_task E t] else [])), w1)
    ∧ storage w1 = storage w
    ∧ files w1 = files w
    ∧ firestore w1
      = after_deletes E (if token_gone result then [t] else []) (firestore w)
    ∧ calls w1
      = calls w ++ (if token_gone result then [token_delete t] else []).
Proof.
  intros Ht Hne. unfold cleanup_result, token_gone. rewrite Ht.
  destruct (error result) as [code |].
  - unfold bind at 1. unfold console_log at 1.
    destruct (decide (code = lit "messaging/invalid-registration-token"
                      ∨ code = lit "messaging/registration-token-not-registered"))
      as [Hgone | Hnot].
    + rewrite bool_decide_eq_true_2
        by (destruct Hgone as [-> | ->]; [left | right]; reflexivity).
      destruct t as [| x u]; [congruence |].
      unfold bind at 1. rewrite doc_valid. unfold bind at 1. unfold start.
      unfold after_deletes, delete_task, token_delete. cbn [foldl].
      destruct (rejects E (DocDelete (lit "messages", x :: u))) eqn:Hrej.
      * rewrite (doc_delete_rejected _ _ _ Hrej).
        eexists. split; [reflexivity |]. repeat split.
      * rewrite (doc_delete_ok _ _ _ Hrej).
        eexists. split; [reflexivity |]. repeat split.
    + rewrite bool_decide_eq_false_2
        by (intros [[= H] | [= H]]; apply Hnot; [left | right]; exact H).
      eexists. split; [unfold ret; rewrite app_nil_r; reflexivity |].
      cbn. rewrite app_nil_r. repeat split.
  - rewrite bool_decide_eq_false_2 by (intros [H | H]; discriminate).
    eexists. split; [unfold ret; rewrite app_nil_r; reflexivity |].
    cbn. rewrite app_nil_r. repeat split.
Qed.

Lemma cleanup_forEach_spec (tokens : list jsstring)
    (results : list SendResult) :
  ∀ (index : nat) (tokensDelete : list (outcome unit)) (w : World),
    Forall (λ t, t ≠ []) tokens →
    (index + length results ≤ length tokens)%nat →
    ∃ w',
      cleanup_forEach E tokens tokensDelete index results w
      = (Ok (tokensDelete
             ++ (delete_task E <$> stale_tokens (drop index tokens) results)),
         w')
      ∧ storage w' = storage w
      ∧ files w' = files w
      ∧ firestore w'
        = after_deletes E (stale_tokens (drop index tokens) results)
            (firestore w)
      ∧ calls w'
        = calls w
          ++ (token_delete <$> stale_tokens (drop index tokens) results).
Proof.
  induction results as [| result results IH];
    intros index tokensDelete w Hne Hlen.
  - exists w. rewrite stale_tokens_nil_r. cbn. rewrite !app_nil_r.
    repeat split.
  - cbn [length] in Hlen.
    destruct (lookup_lt_is_Some_2 tokens index ltac:(lia)) as [t Ht].
    assert (Htne : t ≠ []).
    { rewrite Forall_forall in Hne. apply Hne.
      apply list_elem_of_lookup. eauto. }
    destruct (cleanup_result_spec tokens tokensDelete index result t w Ht Htne)
      as (w1 & Hstep & Hst1 & Hfi1 & Hfs1 & Hc1).
    destruct (IH (S index)
                (tokensDelete
                 ++ (if token_gone result then [delete_task E t] else []))
                w1 Hne ltac:(lia))
      as (w' & Hrest & Hst & Hfi & Hfs & Hc).
    exists w'. cbn [cleanup_forEach]. unfold bind at 1.
    rewrite Hstep, Hrest.
    rewrite (drop_S _ _ _ Ht), stale_tokens_cons.
    rewrite fmap_app, after_deletes_app, fmap_app, <- !app_assoc.
    rewrite Hst, Hfi, Hfs, Hc, Hst1, Hfi1, Hfs1, Hc1, <- app_assoc.
    destruct (token_gone result); repeat split.
Qed.

(** What [cleanupTokens] does when every result has its token. *)
Lemma cleanupTokens_spec (response : list SendResult)
    (tokens : list jsstring) (w : World) :
  Forall (λ t, t ≠ []) tokens →
  (length response ≤ length tokens)%nat →
  ∃ w',
    cleanupTokens E response tokens w
    = (Ok (Promise_all (delete_task E <$> stale_tokens tokens response)), w')
    ∧ storage w' = storage w
    ∧ files w' = files w
    ∧ firestore w' = after_deletes E (stale_tokens tokens response) (firestore w)
    ∧ calls w' = calls w ++ (token_delete <$> stale_tokens tokens response).
Proof.
  intros Hne Hlen.
  destruct (cleanup_forEach_spec tokens response 0 [] w Hne ltac:(lia))
    as (w' & Hrun & Hrest).
  exists w'. unfold cleanupTokens, bind. rewrite Hrun. cbn [drop] in *.
  split; [reflexivity | exact Hrest].
Qed.

End Fan_out_more.

Lemma Promise_all_delete_tasks (E : Env) (tokens : list jsstring) :
  Promise_all (delete_task E <$> tokens) = Ok tt
  ↔ Forall (λ t, rejects E (token_delete t) = false) tokens.
Proof.
  induction tokens as [| t tokens IH]; cbn.
  - split; [constructor | reflexivity].
  - unfold delete_task at 1. rewrite Forall_cons.
    destruct (rejects E (token_delete t)); cbn.
    + split; [discriminate | intros [[=] _]].
    + rewrite IH. tauto.
Qed.

Lemma after_deletes_lookup_None (E : Env) (tokens : list jsstring)
    (fs : gmap docref document) (ref : docref) :
  fs !! ref = None → after_deletes E tokens fs !! ref = None.
Proof.
  revert fs. induction tokens as [| t tokens IH]; intros fs Hfs; [exact Hfs |].
  unfold after_deletes. cbn [foldl]. apply IH.
  destruct (rejects E (token_delete t)); [exact Hfs |].
  destruct (decide ((lit "messages", t) = ref)) as [<- | Hne].
  - apply lookup_delete_eq.
  - rewrite lookup_delete_ne by exact Hne. exact Hfs.
Qed.

Lemma after_deletes_lookup_deleted (E : Env) (tokens : list jsstring)
    (fs : gmap docref document) (t : jsstring) :
  t ∈ tokens →
  rejects E (token_delete t) = false →
  after_deletes E tokens fs !! (lit "messages", t) = None.
Proof.
  revert fs. induction tokens as [| t' tokens IH]; intros fs Hin Hok.
  - apply elem_of_nil in Hin as [].
  - unfold after_deletes. cbn [foldl].
    apply elem_of_cons in Hin as [<- | Hin].
    + rewrite Hok. apply after_deletes_lookup_None, lookup_delete_eq.
    + apply IH; assumption.
Qed.

Section Fan_out_extras.

Variable E : Env.

(** X13.  [cleanupTokens] issues one deletion for each result whose error
    code is one of the two "token gone" codes, in the order of the results,
    and no call for a delivered result or for any other error; it issues
    all of them even when the store rejects some, and touches neither the
    bucket nor the local files.  (Tokens are document ids: non-empty
    strings without a ['/']; every result has its token.) *)
Theorem cleanupTokens_issues_deletes_for_gone_tokens
    (response : list SendResult) (tokens : list jsstring) (w : World) :
  Forall (λ t, t ≠ [] ∧ path.sep ∉ t) tokens →
  (length response ≤ length tokens)%nat →
  ∃ promise w',
    cleanupTokens E response tokens w = (Ok promise, w')
    ∧ calls w' = calls w ++ (token_delete <$> stale_tokens tokens response)
    ∧ storage w' = storage w
    ∧ files w' = files w.
Proof.
  intros Hids Hlen.
  assert (Hne : Forall (λ t, t ≠ []) tokens)
    by (eapply Forall_impl; [exact Hids | intros t [Ht _]; exact Ht]).
  destruct (cleanupTokens_spec E response tokens w Hne Hlen)
    as (w' & Hrun & Hst & Hfi & _ & Hc).
  eauto 10.
Qed.

(** X14.  The promise that [cleanupTokens] returns is fulfilled exactly
    when the store accepts every deletion issued; one rejected deletion
    rejects it.  (Tokens are document ids: non-empty strings without a
    ['/']; every result has its token.) *)
Theorem cleanupTokens_promise_fulfilled_iff
    (response : list SendResult) (tokens : list jsstring) (w : World) :
  Forall (λ t, t ≠ [] ∧ path.sep ∉ t) tokens →
  (length response ≤ length tokens)%nat →
  (cleanupTokens E response tokens w).1 = Ok (Ok tt)
  ↔ Forall (λ t, rejects E (token_delete t) = false)
      (stale_tokens tokens response).
Proof.
  intros Hids Hlen.
  assert (Hne : Forall (λ t, t ≠ []) tokens)
    by (eapply Forall_impl; [exact Hids | intros t [Ht _]; exact Ht]).
  destruct (cleanupTokens_spec E response tokens w Hne Hlen) as (w' & -> & _).
  cbn [fst]. rewrite <- Promise_all_delete_tasks.
  split; [intros [= ->]; reflexivity | intros ->; reflexivity].
Qed.

(** X15.  Each deletion that the store accepts removes the document of the
    collection of the messages whose id is the token: after
    [cleanupTokens], no message with the id of such a token is left.
    (Tokens are document ids: non-empty strings without a ['/']; every
    result has its token.) *)
Theorem cleanupTokens_removes_message_named_like_token
    (response : list SendResult) (tokens : list jsstring) (w : World)
    (t : jsstring) :
  Forall (λ t, t ≠ [] ∧ path.sep ∉ t) tokens →
  (length response ≤ length tokens)%nat →
  t ∈ stale_tokens tokens response →
  rejects E (token_delete t) = false →
  firestore (cleanupTokens E response tokens w).2 !! (lit "messages", t) = None.
Proof.
  intros Hids Hlen Hin Hok.
  assert (Hne : Forall (λ t, t ≠ []) tokens)
    by (eapply Forall_impl; [exact Hids | intros t' [Ht _]; exact Ht]).
  destruct (cleanupTokens_spec E response tokens w Hne Hlen)
    as (w' & -> & _ & _ & Hfs & _).
  cbn [snd]. rewrite Hfs. apply after_deletes_lookup_deleted; assumption.
Qed.

(** X16.  With at least one registered token, [sendNotifications] reads the
    token collection, dispatches once, to all the registered tokens and
    with the notification built from the message, and then issues the
    deletions of the cleanup; it returns normally exactly when the store
    accepts all of these deletions. *)
Theorem sendNotifications_dispatches_to_all_tokens
    (snapshot : MessageData) (w : World) (t0 : jsstring) (d0 : document) :
  let tokens := collection_ids (lit "fcmTokens") (firestore w) in
  let payload := notification E snapshot in
  let results := send_results E tokens payload in
  firestore w !! (lit "fcmTokens", t0) = Some d0 →
  firestore w !! (lit "fcmTokens", []) = None →
  rejects E (CollectionGet (lit "fcmTokens")) = false →
  rejects E (SendToDevice tokens payload) = false →
  (length results ≤ length tokens)%nat →
  ∃ res w',
    sendNotifications E snapshot w = (res, w')
    ∧ calls w'
      = calls w
        ++ [CollectionGet (lit "fcmTokens"); SendToDevice tokens payload]
        ++ (token_delete <$> stale_tokens tokens results)
    ∧ (∀ t, t ∈ tokens ↔ is_Some (firestore w !! (lit "fcmTokens", t)))
    ∧ (res = Ok tt
       ↔ Forall (λ t, rejects E (token_delete t) = false)
           (stale_tokens tokens results)).
Proof.
  intros tokens payload results Ht0 Hempty Hget Hsend Hlen.
  assert (Hin : ∀ t, t ∈ tokens ↔ is_Some (firestore w !! (lit "fcmTokens", t))).
  { intros t. apply collection_ids_elem. }
  assert (Hne : Forall (λ t, t ≠ []) tokens).
  { apply Forall_forall. intros t Ht ->. apply Hin in Ht as [d Hd]. congruence. }
  assert (Hpos : (0 <? length tokens)%nat = true).
  { assert (Hmem : t0 ∈ tokens) by (apply Hin; eauto).
    destruct tokens; [apply elem_of_nil in Hmem as [] | reflexivity]. }
  unfold sendNotifications, collection_get, sendToDevice. cbn zeta.
  fold payload. unfold bind at 1 2. rewrite (service_ok _ _ _ Hget).
  step. fold tokens. rewrite Hpos.
  rewrite (service_ok _ _ _ Hsend). cbn [fst snd]. fold results.
  set (w1 := add_call _ (add_call _ w)).
  destruct (cleanupTokens_spec E results tokens w1 Hne Hlen)
    as (w2 & -> & _ & _ & _ & Hc).
  assert (Hcalls : calls w2
                   = calls w
                     ++ [CollectionGet (lit "fcmTokens");
                         SendToDevice tokens payload]
                     ++ (token_delete <$> stale_tokens tokens results)).
  { rewrite Hc. subst w1. cbn [calls add_call].
    rewrite <- !app_assoc. reflexivity. }
  pose proof (Promise_all_delete_tasks E (stale_tokens tokens results)) as Hall.
  destruct (Promise_all (delete_task E <$> stale_tokens tokens results))
    as [[] | e].
  - do 2 eexists. split; [reflexivity |]. cbn [calls add_log].
    repeat split; try assumption; try apply Hin.
    + intros _. apply Hall. reflexivity.
  - do 2 eexists. split; [reflexivity |].
    repeat split; try assumption; try apply Hin.
    + discriminate.
    + intros H. apply Hall in H. discriminate.
Qed.

(** X17.  When the dispatcher fails, [sendNotifications] fails with that
    error right after the dispatch: no deletion is issued and nothing
    stored changes. *)
Theorem dispatcher_failure_skips_cleanup
    (snapshot : MessageData) (w : World) (t0 : jsstring) (d0 : document) :
  let tokens := collection_ids (lit "fcmTokens") (firestore w) in
  let payload := notification E snapshot in
  firestore w !! (lit "fcmTokens", t0) = Some d0 →
  rejects E (CollectionGet (lit "fcmTokens")) = false →
  rejects E (SendToDevice tokens payload) = true →
  sendNotifications E snapshot w
  = (Throw (ServiceError (SendToDevice tokens payload)),
     add_call (SendToDevice tokens payload)
       (add_call (CollectionGet (lit "fcmTokens")) w)).
Proof.
  intros tokens payload Ht0 Hget Hsend.
  assert (Hpos : (0 <? length tokens)%nat = true).
  { assert (Hmem : t0 ∈ tokens) by (apply collection_ids_elem; eauto).
    destruct tokens; [apply elem_of_nil in Hmem as [] | reflexivity]. }
  unfold sendNotifications, collection_get, sendToDevice. cbn zeta.
  fold payload. unfold bind at 1 2. rewrite (service_ok _ _ _ Hget).
  step. fold tokens. rewrite Hpos.
  rewrite (service_rejected _ _ _ Hsend). reflexivity.
Qed.

End Fan_out_extras.

Section Fan_out_frame.

Variable E : Env.

Lemma cleanup_result_frame (tokens : list jsstring)
    (tokensDelete : list (outcome unit)) (index : nat) (result : SendResult) :
  respects fan_out_frame (cleanup_result E tokens tokensDelete index result).
Proof.
  unfold cleanup_result, fan_out_frame.
  destruct (error result) as [code |]; [| apply respects_ret; exact _].
  apply respects_bind; [exact _ | apply frame_console_log | intros _].
  case_decide; [| apply respects_ret; exact _].
  destruct (tokens !! index) as [[| x u] |].
  - apply respects_throw_bind. exact _.
  - apply respects_ret_bind.
    apply respects_bind; [exact _ | | intros task; apply respects_ret; exact _].
    apply respects_start, frame_doc_delete. reflexivity.
  - apply respects_throw_bind. exact _.
Qed.

Lemma cleanup_forEach_frame (tokens : list jsstring) (results : list SendResult) :
  ∀ (tokensDelete : list (outcome unit)) (index : nat),
    respects fan_out_frame (cleanup_forEach E tokens tokensDelete index results).
Proof.
  induction results as [| result results IH]; intros tokensDelete index.
  - apply respects_ret. unfold fan_out_frame. exact _.
  - cbn [cleanup_forEach].
    apply respects_bind;
      [unfold fan_out_frame; exact _ | apply cleanup_result_frame |].
    intros acc. apply IH.
Qed.

(** X18.  Whatever the services answer, and whether it returns or throws,
    [sendNotifications] changes no object of the bucket, no local file and
    no document outside the collection of the messages: in particular the
    collection of the device tokens is the same afterwards. *)
Theorem sendNotifications_frame (snapshot : MessageData) (w : World) :
  frame (λ _, False) (λ _, False) (λ r : docref, r.1 = lit "messages")
    w (sendNotifications E snapshot w).2.
Proof.
  revert w. change (respects fan_out_frame (sendNotifications E snapshot)).
  assert (Htrans : Transitive fan_out_frame) by (unfold fan_out_frame; exact _).
  assert (Hrefl : Reflexive fan_out_frame) by (unfold fan_out_frame; exact _).
  unfold sendNotifications. cbn zeta.
  apply respects_bind; [exact _ | apply frame_collection_get | intros tokens].
  destruct (0 <? length tokens)%nat; [| apply respects_ret; exact _].
  apply respects_bind; [exact _ | apply frame_sendToDevice | intros response].
  apply respects_bind; [exact _ | | intros cleaned].
  - unfold cleanupTokens.
    apply respects_bind; [exact _ | apply cleanup_forEach_frame |].
    intros tasks. apply respects_ret. exact _.
  - apply respects_bind; [exact _ | apply respects_await; exact _ | intros _].
    apply frame_console_log.
Qed.

End Fan_out_frame.

(* ===================================================================== *)
(** ** More on the welcome message *)
(* ===================================================================== *)

Section Welcome_more.

Variable E : Env.

(** X19.  Whatever the store answers, and whether it returns or throws,
    [addWelcomeMessages] only ever adds: every document that existed is
    still there unchanged, at most the document under the new id is new,
    and the bucket and the local files are untouched. *)
Theorem addWelcomeMessages_only_adds (user : UserRecord) (w : World) :
  storage (addWelcomeMessages E user w).2 = storage w
  ∧ files (addWelcomeMessages E user w).2 = files w
  ∧ firestore w ⊆ firestore (addWelcomeMessages E user w).2
  ∧ ∀ r, r ≠ (lit "messages", auto_id E) →
         firestore (addWelcomeMessages E user w).2 !! r = firestore w !! r.
Proof.
  assert (Hrun : ∃ res w',
            addWelcomeMessages E user w = (res, w')
            ∧ storage w' = storage w
            ∧ files w' = files w
            ∧ firestore w ⊆ firestore w'
            ∧ ∀ r, r ≠ (lit "messages", auto_id E) →
                   firestore w' !! r = firestore w !! r).
  { unfold addWelcomeMessages, collection_add.
    unfold bind at 1. unfold console_log at 1. cbn zeta.
    unfold bind at 1 2.
    match goal with
    | |- context [service E ?c ?w0] =>
        destruct (service_frame E c w0) as [[[] | e] ->]
    end; [| do 2 eexists; split; [reflexivity |]; repeat split; reflexivity].
    step.
    destruct (firestore w !! (lit "messages", auto_id E)) eqn:Hfree;
      [do 2 eexists; split; [reflexivity |]; repeat split; reflexivity |].
    do 2 eexists. split; [reflexivity |]. cbn. repeat split.
    - apply insert_subseteq, Hfree.
    - intros r Hr. apply lookup_insert_ne. congruence. }
  destruct Hrun as (res & w' & -> & Hrest). exact Hrest.
Qed.

(** X20.  When the store rejects the [add], or the new id is already
    taken, [addWelcomeMessages] fails: no document is written, and the
    line that reports the message as written is not logged. *)
Theorem welcome_add_failure (user : UserRecord) (w : World) :
  (∀ fields, rejects E (DocAdd (lit "messages") fields) = true)
  ∨ is_Some (firestore w !! (lit "messages", auto_id E)) →
  ∃ e w',
    addWelcomeMessages E user w = (Throw e, w')
    ∧ firestore w' = firestore w
    ∧ console w'
      = console w ++ [[lit "A new user signed in for the first time."]].
Proof.
  intros Hfail.
  unfold addWelcomeMessages, collection_add.
  unfold bind at 1. unfold console_log at 1. cbn zeta.
  unfold bind at 1 2.
  match goal with
  | |- context [rejects E ?c] => destruct (rejects E c) eqn:Hrej
  | |- context [service E ?c ?w0] => destruct (rejects E c) eqn:Hrej
  end.
  - rewrite (service_rejected _ _ _ Hrej). eauto.
  - rewrite (service_ok _ _ _ Hrej). step.
    destruct Hfail as [Hall | [d Hd]]; [rewrite Hall in Hrej; discriminate |].
    rewrite Hd. eauto.
Qed.

(** X21.  The document stored by a successful [addWelcomeMessages] has
    exactly four fields: the name of the bot, its logo, the welcome text,
    and a timestamp which is the time of the server, not the sentinel that
    the handler passed. *)
Theorem welcome_document_stored (user : UserRecord) (w : World) :
  (∀ fields, rejects E (DocAdd (lit "messages") fields) = false) →
  firestore w !! (lit "messages", auto_id E) = None →
  ∃ w',
    addWelcomeMessages E user w = (Ok tt, w')
    ∧ firestore w' !! (lit "messages", auto_id E)
      = Some (welcome_document E user)
    ∧ welcome_document E user !! lit "timestamp" = Some (VTime (server_time E))
    ∧ dom (welcome_document E user)
      = {[ lit "name"; lit "profilePicUrl"; lit "text"; lit "timestamp" ]}.
Proof.
  intros Hrej Hfree.
  unfold addWelcomeMessages, collection_add.
  unfold bind at 1. unfold console_log at 1. cbn zeta.
  unfold bind at 1 2. rewrite (service_ok _ _ _ (Hrej _)).
  step. rewrite Hfree.
  eexists. split; [reflexivity |].
  split; [cbn [firestore with_firestore add_log];
          rewrite lookup_insert_eq; reflexivity |].
  split; reflexivity.
Qed.

End Welcome_more.

(* ===================================================================== *)
(** ** The properties above on concrete inputs *)
(* ===================================================================== *)

(** X13 at a concrete input: token A not registered, token B with another
    error, token C delivered to; one deletion, for A. *)
Lemma cleanupTokens_issues_deletes_for_gone_tokens_witness :
  ∃ promise w',
    cleanupTokens (Sample.env Sample.harmless Sample.a_b_gone)
      [Sample.not_registered; Sample.unavailable; Sample.delivered]
      [lit "tokenA"; lit "tokenB"; lit "tokenC"] Sample.world
    = (Ok promise, w')
    ∧ calls w' = calls Sample.world ++ [token_delete (lit "tokenA")]
    ∧ storage w' = storage Sample.world
    ∧ files w' = files Sample.world.
Proof.
  apply (cleanupTokens_issues_deletes_for_gone_tokens
           (Sample.env Sample.harmless Sample.a_b_gone)
           [Sample.not_registered; Sample.unavailable; Sample.delivered]
           [lit "tokenA"; lit "tokenB"; lit "tokenC"] Sample.world).
  - compute_done.
  - cbn. lia.
Defined.

(** X14 at a concrete input: the store rejects the deletions, and the
    promise is rejected. *)
Lemma cleanupTokens_promise_fulfilled_iff_witness :
  (cleanupTokens (Sample.env_delete_fails Sample.a_b_gone)
     [Sample.not_registered; Sample.invalid_token; Sample.delivered]
     [lit "tokenA"; lit "tokenB"; lit "tokenC"] Sample.world).1 = Ok (Ok tt)
  ↔ Forall (λ t, rejects (Sample.env_delete_fails Sample.a_b_gone)
                   (token_delete t) = false)
      (stale_tokens [lit "tokenA"; lit "tokenB"; lit "tokenC"]
         [Sample.not_registered; Sample.invalid_token; Sample.delivered]).
Proof.
  apply (cleanupTokens_promise_fulfilled_iff
           (Sample.env_delete_fails Sample.a_b_gone)
           [Sample.not_registered; Sample.invalid_token; Sample.delivered]
           [lit "tokenA"; lit "tokenB"; lit "tokenC"] Sample.world).
  - compute_done.
  - cbn. lia.
Defined.

(** X15 at a concrete input: a chat message whose id is the string of the
    stale token A is deleted. *)
Lemma cleanupTokens_removes_message_named_like_token_witness :
  is_Some (firestore Sample.world_clash !! (lit "messages", lit "tokenA"))
  ∧ firestore
      (cleanupTokens (Sample.env Sample.harmless Sample.a_b_gone)
         [Sample.not_registered] [lit "tokenA"] Sample.world_clash).2
    !! (lit "messages", lit "tokenA") = None.
Proof.
  split; [compute_done |].
  apply (cleanupTokens_removes_message_named_like_token
           (Sample.env Sample.harmless Sample.a_b_gone)
           [Sample.not_registered] [lit "tokenA"] Sample.world_clash
           (lit "tokenA")).
  - compute_done.
  - cbn. lia.
  - compute_done.
  - reflexivity.
Defined.

(** X16 at a concrete input: three registered tokens, two of them gone. *)
Lemma sendNotifications_dispatches_to_all_tokens_witness :
  ∃ res w',
    sendNotifications (Sample.env Sample.harmless Sample.a_b_gone) Sample.hello
      Sample.world = (res, w')
    ∧ calls w'
      = calls Sample.world
        ++ [CollectionGet (lit "fcmTokens");
            SendToDevice
              (collection_ids (lit "fcmTokens") (firestore Sample.world))
              (notification (Sample.env Sample.harmless Sample.a_b_gone)
                 Sample.hello)]
        ++ (token_delete
            <$> stale_tokens
                  (collection_ids (lit "fcmTokens") (firestore Sample.world))
                  (Sample.a_b_gone
                   <$> collection_ids (lit "fcmTokens")
                         (firestore Sample.world)))
    ∧ res = Ok tt.
Proof.
  destruct (sendNotifications_dispatches_to_all_tokens
              (Sample.env Sample.harmless Sample.a_b_gone) Sample.hello
              Sample.world (lit "tokenA") {[ lit "uid" := VStr (lit "u1") ]})
    as (res & w' & Hrun & Hcalls & _ & Hres);
    [reflexivity | reflexivity | reflexivity | reflexivity
    | cbn; rewrite length_fmap; lia |].
  exists res, w'. split; [exact Hrun |]. split; [exact Hcalls |].
  apply Hres. apply Forall_forall. intros t _. reflexivity.
Defined.

(** X17 at a concrete input: the dispatcher is down. *)
Lemma dispatcher_failure_skips_cleanup_witness :
  sendNotifications Sample.env_services_down Sample.hello Sample.world
  = (Throw (ServiceError
              (SendToDevice
                 (collection_ids (lit "fcmTokens") (firestore Sample.world))
                 (notification Sample.env_services_down Sample.hello))),
     add_call
       (SendToDevice
          (collection_ids (lit "fcmTokens") (firestore Sample.world))
          (notification Sample.env_services_down Sample.hello))
       (add_call (CollectionGet (lit "fcmTokens")) Sample.world)).
Proof.
  apply (dispatcher_failure_skips_cleanup Sample.env_services_down Sample.hello
           Sample.world (lit "tokenA") {[ lit "uid" := VStr (lit "u1") ]});
    reflexivity.
Defined.

(** X20 at a concrete input: the store rejects the [add]. *)
Lemma welcome_add_failure_witness :
  ∃ e w',
    addWelcomeMessages Sample.env_services_down
      {| displayName := Some (lit "Ann") |} Sample.world = (Throw e, w')
    ∧ firestore w' = firestore Sample.world
    ∧ console w'
      = console Sample.world
        ++ [[lit "A new user signed in for the first time."]].
Proof.
  apply (welcome_add_failure Sample.env_services_down
           {| displayName := Some (lit "Ann") |} Sample.world).
  left. intros fields. reflexivity.
Defined.

(** X21 at a concrete input: the welcome message of Ann. *)
Lemma welcome_document_stored_witness :
  ∃ w',
    addWelcomeMessages (Sample.env_of Sample.harmless)
      {| displayName := Some (lit "Ann") |} Sample.world = (Ok tt, w')
    ∧ firestore w' !! (lit "messages", lit "welcome1")
      = Some (welcome_document (Sample.env_of Sample.harmless)
                {| displayName := Some (lit "Ann") |})
    ∧ welcome_document (Sample.env_of Sample.harmless)
        {| displayName := Some (lit "Ann") |} !! lit "timestamp"
      = Some (VTime 1500000000)
    ∧ dom (welcome_document (Sample.env_of Sample.harmless)
             {| displayName := Some (lit "Ann") |})
      = {[ lit "name"; lit "profilePicUrl"; lit "text"; lit "timestamp" ]}.
Proof.
  apply (welcome_document_stored (Sample.env_of Sample.harmless)
           {| displayName := Some (lit "Ann") |} Sample.world);
    [intros fields; reflexivity | reflexivity].
Defined.
